(** * HotelRoomSearch: the hybrid ranking core of [hybrid_search.py]

    A shallow embedding of the class [HybridSearch] and the properties of
    its keyword channel, its semantic channel and their fusion.

    Modelling conventions.
    - A JSON object read with [dict.get(key, default)] is a record of
      optional fields; [None] is an absent key.  Field values have the
      types the scoring code compares them at (strings, integers, lists
      of strings); a key bound to a value of another type, JSON [null]
      included, makes the comparisons raise and is outside the model.
    - Python [int] is [Z].  Python [float] is the exact rational [Q]:
      [score] and [max_score] only ever hold sums of [1.0], and the
      quotient and the weighted sum are taken exactly, without rounding
      and without NaN.  Equality of scores is [Qeq].
    - Python [str] is [string]; [str.lower] is the ASCII case mapping and
      [a in b] is the substring test.
    - [vision_results] is an insertion-ordered dict: a list of items whose
      keys are pairwise distinct.  The local lookup tables are [gmap]s.
    - [sorted(..., reverse=True)] is stable: equal keys keep their input
      order.
    - The embedding provider and numpy's cosine are external; they are
      parameters of the development. *)

From Stdlib Require Import ZArith QArith Lqa Lia Ascii String List.
From Stdlib Require Import Sorting.Sorted DecimalString.
From stdpp Require Import base option list strings gmap sets.

Local Open Scope string_scope.
Local Open Scope list_scope.

(** ** Strings *)

Module Str.

(** [str.lower] on one character. *)
Definition lower_ascii (c : ascii) : ascii :=
  let n := N_of_ascii c in
  if ((65 <=? n) && (n <=? 90))%N then ascii_of_N (n + 32) else c.

(** [s.lower()] *)
Fixpoint lower (s : string) : string :=
  match s with
  | EmptyString => EmptyString
  | String c s' => String (lower_ascii c) (lower s')
  end.

(** [s.startswith(p)] *)
Fixpoint starts_with (p s : string) : bool :=
  match p, s with
  | EmptyString, _ => true
  | String _ _, EmptyString => false
  | String a p', String b s' =>
      if Ascii.eqb a b then starts_with p' s' else false
  end.

(** [sub in s]: is [sub] found at some offset of [s]. *)
Fixpoint contains (sub s : string) : bool :=
  match s with
  | EmptyString => starts_with sub s
  | String _ s' => starts_with sub s || contains sub s'
  end.

(** Truthiness of a string: [if s] holds iff [s] is not empty. *)
Definition truthy (s : string) : bool :=
  match s with EmptyString => false | String _ _ => true end.

(** The mathematical notion: [sub] occurs as a contiguous block of [s]. *)
Definition Substring (sub s : string) : Prop :=
  exists pre post : string, s = (pre ++ sub ++ post)%string.

End Str.

(** ** Data model *)

(** The JSON object produced by the query parser and by the image
    analyser; both have the same keys. *)
Record room_json : Type := RoomJson {
  room_type : option string;
  max_capacity : option Z;
  view_type : option string;
  features : option (list string);
  description : option string
}.

(** [d.get(key, dflt)] *)
Definition get {A : Type} (field : option A) (dflt : A) : A :=
  match field with Some v => v | None => dflt end.

(** One scalar entry of [match_details]:
    [{"query": .., "vision": .., "match": ..}]. *)
Record field_detail (A : Type) : Type := FieldDetail {
  fd_query : A;
  fd_vision : A;
  fd_match : bool
}.
Arguments FieldDetail {A} _ _ _.
Arguments fd_query {A} _.
Arguments fd_vision {A} _.
Arguments fd_match {A} _.

(** The ["features"] entry:
    [{"query": .., "vision": .., "matches": ..}]. *)
Record features_detail : Type := FeaturesDetail {
  ft_query : list string;
  ft_vision : list string;
  ft_matches : list string
}.

(** The [match_details] dict; an absent key is [None]. *)
Record match_details : Type := MatchDetails {
  md_query_description : option string;
  md_room_type : option (field_detail string);
  md_max_capacity : option (field_detail Z);
  md_view_type : option (field_detail string);
  md_features : option features_detail;
  md_semantic_score : option Q;
  md_keyword_score : option Q;
  md_combined_score : option Q
}.

(** The empty dict [{}]. *)
Definition empty_details : match_details :=
  MatchDetails None None None None None None None None.

(** ** The keyword channel: scoring one candidate *)

(** The three variables the loop body of [keyword_search] updates. *)
Record tally : Type := Tally {
  score : Q;
  max_score : Q;
  details : match_details
}.

Definition set_room (md : match_details) (d : field_detail string) :=
  MatchDetails (md_query_description md) (Some d) (md_max_capacity md)
    (md_view_type md) (md_features md) (md_semantic_score md)
    (md_keyword_score md) (md_combined_score md).

Definition set_capacity (md : match_details) (d : field_detail Z) :=
  MatchDetails (md_query_description md) (md_room_type md) (Some d)
    (md_view_type md) (md_features md) (md_semantic_score md)
    (md_keyword_score md) (md_combined_score md).

Definition set_view (md : match_details) (d : field_detail string) :=
  MatchDetails (md_query_description md) (md_room_type md)
    (md_max_capacity md) (Some d) (md_features md) (md_semantic_score md)
    (md_keyword_score md) (md_combined_score md).

Definition set_features (md : match_details) (d : features_detail) :=
  MatchDetails (md_query_description md) (md_room_type md)
    (md_max_capacity md) (md_view_type md) (Some d) (md_semantic_score md)
    (md_keyword_score md) (md_combined_score md).

(** [score += 1.0] when [b]. *)
Definition bump (b : bool) (s : Q) : Q := if b then (s + 1)%Q else s.

(** The query elements extracted before the loop (lines 68-72). *)
Definition query_room_type (q : room_json) : string :=
  Str.lower (get (room_type q) "").
Definition query_max_capacity (q : room_json) : Z :=
  get (max_capacity q) 0%Z.
Definition query_view_type (q : room_json) : string :=
  Str.lower (get (view_type q) "").
Definition query_features (q : room_json) : list string :=
  map Str.lower (get (features q) []).
Definition query_description (q : room_json) : string :=
  get (description q) "".

(** The guards of the four blocks. *)
Definition room_active (q : room_json) : bool :=
  Str.truthy (query_room_type q)
  && negb (String.eqb (query_room_type q) "any").

Definition capacity_active (q : room_json) : bool :=
  (0 <? query_max_capacity q)%Z.

Definition view_active (q : room_json) : bool :=
  Str.truthy (query_view_type q)
  && negb (String.eqb (query_view_type q) "any"
           || String.eqb (query_view_type q) "standard").

Definition features_active (q : room_json) : bool :=
  match query_features q with [] => false | _ :: _ => true end.

(** The candidate's elements read inside the blocks. *)
Definition vision_room_type (vision_json : room_json) : string :=
  Str.lower (get (room_type vision_json) "").
Definition vision_max_capacity (vision_json : room_json) : Z :=
  get (max_capacity vision_json) 0%Z.
Definition vision_view_type (vision_json : room_json) : string :=
  Str.lower (get (view_type vision_json) "").
Definition vision_features (vision_json : room_json) : list string :=
  map Str.lower (get (features vision_json) []).

(** [room_match], [capacity_match] and [view_match] (lines 86, 101, 116). *)
Definition room_match (q vision_json : room_json) : bool :=
  Str.contains (query_room_type q) (vision_room_type vision_json).
Definition capacity_match (q vision_json : room_json) : bool :=
  (query_max_capacity q <=? vision_max_capacity vision_json)%Z.
Definition view_match (q vision_json : room_json) : bool :=
  Str.contains (query_view_type q) (vision_view_type vision_json).

(** Room type block (lines 83-95). *)
Definition room_block (q vision_json : room_json) (t : tally) : tally :=
  if room_active q then
    Tally (bump (room_match q vision_json) (score t)) (max_score t + 1)%Q
      (set_room (details t)
         (FieldDetail (query_room_type q) (vision_room_type vision_json)
            (room_match q vision_json)))
  else t.

(** Capacity block (lines 98-110). *)
Definition capacity_block (q vision_json : room_json) (t : tally) : tally :=
  if capacity_active q then
    Tally (bump (capacity_match q vision_json) (score t)) (max_score t + 1)%Q
      (set_capacity (details t)
         (FieldDetail (query_max_capacity q)
            (vision_max_capacity vision_json)
            (capacity_match q vision_json)))
  else t.

(** View type block (lines 113-125). *)
Definition view_block (q vision_json : room_json) (t : tally) : tally :=
  if view_active q then
    Tally (bump (view_match q vision_json) (score t)) (max_score t + 1)%Q
      (set_view (details t)
         (FieldDetail (query_view_type q) (vision_view_type vision_json)
            (view_match q vision_json)))
  else t.

(** The inner loop over [vision_features]: [true] when it leaves through
    [break], which it does at the first feature containing [feature]. *)
Fixpoint inner_loop (feature : string) (vfs : list string) : bool :=
  match vfs with
  | [] => false
  | vision_feature :: rest =>
      if Str.contains feature vision_feature then true
      else inner_loop feature rest
  end.

(** The outer loop over [query_features], threading [matched_features]
    and [score]. *)
Fixpoint outer_loop (qfs vfs matched_features : list string) (s : Q)
  : list string * Q :=
  match qfs with
  | [] => (matched_features, s)
  | feature :: rest =>
      if inner_loop feature vfs
      then outer_loop rest vfs (matched_features ++ [feature]) (s + 1)%Q
      else outer_loop rest vfs matched_features s
  end.

(** [len(query_features)] as a float. *)
Definition len_Q {A : Type} (l : list A) : Q :=
  inject_Z (Z.of_nat (length l)).

(** Features block (lines 128-144). *)
Definition features_block (q vision_json : room_json) (t : tally) : tally :=
  if features_active q then
    let '(matched_features, s) :=
      outer_loop (query_features q) (vision_features vision_json) []
        (score t) in
    Tally s (max_score t + len_Q (query_features q))%Q
      (set_features (details t)
         (FeaturesDetail (query_features q) (vision_features vision_json)
            matched_features))
  else t.

(** The loop body up to line 144, for one candidate. *)
Definition score_candidate (q vision_json : room_json) : tally :=
  features_block q vision_json
    (view_block q vision_json
       (capacity_block q vision_json
          (room_block q vision_json
             (Tally 0 0
                (MatchDetails (Some (query_description q)) None None None
                   None None None None))))).

(** Line 147: [score / max_score if max_score > 0 else 0.0]. *)
Definition normalize (t : tally) : Q :=
  if Qlt_le_dec 0 (max_score t) then (score t / max_score t)%Q else 0%Q.

Definition normalized_score (q vision_json : room_json) : Q :=
  normalize (score_candidate q vision_json).

(** One point, or none. *)
Definition point (b : bool) : Q := if b then 1%Q else 0%Q.

(** The query features that some candidate feature contains, in query
    order and with their repetitions. *)
Definition matched (q vision_json : room_json) : list string :=
  filter (fun f => inner_loop f (vision_features vision_json) = true)
    (query_features q).

(** How many times [f] stands in [l]. *)
Definition occurrences (f : string) (l : list string) : nat :=
  length (filter (fun x => x = f) l).

(** The candidate [c] with [extra] appended to its feature list. *)
Definition extend_features (c : room_json) (extra : list string)
  : room_json :=
  RoomJson (room_type c) (max_capacity c) (view_type c)
    (Some (get (features c) [] ++ extra)) (description c).

(** No field of the query expresses a constraint. *)
Definition unconstrained (q : room_json) : Prop :=
  (query_room_type q = "" \/ query_room_type q = "any") /\
  query_max_capacity q = 0%Z /\
  (query_view_type q = "" \/ query_view_type q = "any"
   \/ query_view_type q = "standard") /\
  get (features q) [] = [].

(** ** [sorted(results, key=..., reverse=True)] *)

Section Sorting.
Context {A : Type} (key : A -> Q).

(** Put [x] in front of the first element whose key does not exceed its
    own: [x] comes from earlier in the input than all of [l]. *)
Fixpoint insert_desc (x : A) (l : list A) : list A :=
  match l with
  | [] => [x]
  | y :: l' =>
      if Qle_bool (key y) (key x) then x :: y :: l'
      else y :: insert_desc x l'
  end.

(** The stable arrangement of [l] by decreasing key. *)
Fixpoint sorted_desc (l : list A) : list A :=
  match l with
  | [] => []
  | x :: l' => insert_desc x (sorted_desc l')
  end.

(** Neighbours are in decreasing order of key. *)
Definition descending (l : list A) : Prop :=
  Sorted (fun a b => (key b <= key a)%Q) l.
End Sorting.

(** [l[:n]] for a Python int [n]: a negative [n] counts from the end. *)
Definition slice_to {A : Type} (n : Z) (l : list A) : list A :=
  if (0 <=? n)%Z then take (Z.to_nat n) l
  else take (length l - Z.to_nat (- n)) l.

(** ** [keyword_search] *)

Definition keyword_hit : Type := string * Q * match_details.

Definition hit_url (h : keyword_hit) : string := h.1.1.
Definition hit_score (h : keyword_hit) : Q := h.1.2.
Definition hit_details (h : keyword_hit) : match_details := h.2.

(** The loop of lines 75-151 over [vision_results.items()], appending to
    [results]. *)
Fixpoint keyword_loop (q : room_json) (items : list (string * room_json))
    (min_score : Q) (results : list keyword_hit) : list keyword_hit :=
  match items with
  | [] => results
  | (url, vision_json) :: rest =>
      let t := score_candidate q vision_json in
      let normalized := normalize t in
      if Qle_bool min_score normalized
      then keyword_loop q rest min_score
             (results ++ [(url, normalized, details t)])
      else keyword_loop q rest min_score results
  end.

(** What the loop appends for one item, and when it does. *)
Definition hit_of (q : room_json) (item : string * room_json) : keyword_hit :=
  (item.1, normalized_score q item.2, details (score_candidate q item.2)).

Definition passes (q : room_json) (min_score : Q)
    (item : string * room_json) : bool :=
  Qle_bool min_score (normalized_score q item.2).

Definition kept (q : room_json) (min_score : Q)
    (items : list (string * room_json)) : list (string * room_json) :=
  filter (fun item => passes q min_score item = true) items.

Definition keyword_search (q : room_json)
    (vision_results : list (string * room_json)) (min_score : Q)
  : list keyword_hit :=
  sorted_desc hit_score (keyword_loop q vision_results min_score []).

(** ** The instance, the provider and the semantic channel *)

Section Semantic.
(** [np.ndarray] *)
Variable Vec : Type.

(** The embedding provider.  Its answer may depend on everything that
    was asked before, so two requests for one text need not agree. *)
Variable provider : list string -> string -> Vec.

(** [HybridSearch.cosine_similarity], numpy's
    [dot(a, b) / (norm(a) * norm(b))]. *)
Variable cosine_similarity : Vec -> Vec -> Q.

(** Iteration order of a Python [set]: some enumeration of its
    elements, each once. *)
Variable set_iter : gset string -> list string.

(** The attributes of one [HybridSearch] object. *)
Record instance : Type := Instance {
  embedding_cache : gmap string Vec;
  keyword_weight : Q;
  semantic_weight : Q
}.

(** The object together with the log of texts sent to the provider. *)
Record world : Type := World {
  self : instance;
  requests : list string
}.

(** [HybridSearch(keyword_weight, semantic_weight)] with its default
    arguments (line 19), nothing requested yet. *)
Definition init (kw sw : option Q) : world :=
  World (Instance ∅ (get kw (7 # 10)) (get sw (3 # 10))) [].

(** Methods are state transformers over [world]. *)
Definition M (A : Type) : Type := world -> A * world.
Definition ret {A : Type} (a : A) : M A := fun w => (a, w).
Definition bind {A B : Type} (m : M A) (k : A -> M B) : M B :=
  fun w => let '(a, w') := m w in k a w'.

Notation "x <- m ;; k" := (bind m (fun x => k))
  (at level 100, m at next level, right associativity).

(** [get_embedding] (lines 31-43). *)
Definition get_embedding (text : string) : M Vec := fun w =>
  match embedding_cache (self w) !! text with
  | Some embedding => (embedding, w)
  | None =>
      let embedding := provider (requests w) text in
      (embedding,
       World (Instance (<[text := embedding]> (embedding_cache (self w)))
                (keyword_weight (self w)) (semantic_weight (self w)))
         (requests w ++ [text]))
  end.

(** The loop of lines 177-186. *)
Fixpoint semantic_loop (query_embedding : Vec)
    (items : list (string * room_json)) (results : list (string * Q))
  : M (list (string * Q)) :=
  match items with
  | [] => ret results
  | (url, vision_json) :: rest =>
      let vision_description := get (description vision_json) "" in
      if Str.truthy vision_description then
        vision_embedding <- get_embedding vision_description ;;
        let similarity :=
          cosine_similarity query_embedding vision_embedding in
        semantic_loop query_embedding rest (results ++ [(url, similarity)])
      else semantic_loop query_embedding rest results
  end.

(** [semantic_search] (lines 156-189). *)
Definition semantic_search (q : room_json)
    (vision_results : list (string * room_json))
  : M (list (string * Q)) :=
  if Str.truthy (query_description q) then
    query_embedding <- get_embedding (query_description q) ;;
    results <- semantic_loop query_embedding vision_results [] ;;
    ret (sorted_desc snd results)
  else ret [].

(** A dict comprehension: the pairs are stored in order, a later one
    replacing an earlier one with the same key. *)
Definition dict_of {V : Type} (l : list (string * V)) : gmap string V :=
  fold_left (fun m kv => <[kv.1 := kv.2]> m) l ∅.

(** Lines 214, 215 and 221. *)
Definition keyword_scores (keyword_results : list keyword_hit)
  : gmap string Q :=
  dict_of (map (fun h => (hit_url h, hit_score h)) keyword_results).

Definition keyword_details (keyword_results : list keyword_hit)
  : gmap string match_details :=
  dict_of (map (fun h => (hit_url h, hit_details h)) keyword_results).

Definition semantic_scores (semantic_results : list (string * Q))
    (semantic_min_score : Q) : gmap string Q :=
  dict_of
    (filter (fun us => Qle_bool semantic_min_score us.2 = true)
       semantic_results).

(** Lines 240-242: the three scores written into [details]. *)
Definition annotate (md : match_details) (semantic keyword combined : Q)
  : match_details :=
  MatchDetails (md_query_description md) (md_room_type md)
    (md_max_capacity md) (md_view_type md) (md_features md)
    (Some semantic) (Some keyword) (Some combined).

(** The body of the loop over [all_urls] (lines 230-244). *)
Definition combine (kw sw : Q) (ks : gmap string Q)
    (kd : gmap string match_details) (ss : gmap string Q) (url : string)
  : keyword_hit :=
  let keyword_score := get (ks !! url) 0%Q in
  let semantic_score := get (ss !! url) 0%Q in
  let combined_score :=
    (kw * keyword_score + sw * semantic_score)%Q in
  let details := get (kd !! url) empty_details in
  (url, combined_score,
   annotate details semantic_score keyword_score combined_score).

(** [hybrid_search] up to line 247: [sorted_results].  The keys of
    [combined_results] are inserted in the iteration order of
    [all_urls], each once, so its [values()] follow that order. *)
Definition hybrid_ranked (q : room_json)
    (vision_results : list (string * room_json))
    (keyword_min_score semantic_min_score : Q)
  : M (list keyword_hit) := fun w =>
  let keyword_results :=
    keyword_search q vision_results keyword_min_score in
  let ks := keyword_scores keyword_results in
  let kd := keyword_details keyword_results in
  let '(semantic_results, w') := semantic_search q vision_results w in
  let ss := semantic_scores semantic_results semantic_min_score in
  let all_urls := set_iter (dom ks ∪ dom ss) in
  let combined_results :=
    map (combine (keyword_weight (self w')) (semantic_weight (self w'))
           ks kd ss) all_urls in
  (sorted_desc hit_score combined_results, w').

(** [hybrid_search] (lines 191-248). *)
Definition hybrid_search (q : room_json)
    (vision_results : list (string * room_json))
    (keyword_min_score semantic_min_score : Q) (max_results : Z)
  : M (list keyword_hit) :=
  sorted_results <-
    hybrid_ranked q vision_results keyword_min_score semantic_min_score ;;
  ret (slice_to max_results sorted_results).

(** *** The lifetime of an instance *)

(** A method call made on the object by its user. *)
Inductive call : Type :=
| CallGetEmbedding (text : string)
| CallSemanticSearch (q : room_json)
    (vision_results : list (string * room_json))
| CallHybridSearch (q : room_json)
    (vision_results : list (string * room_json))
    (keyword_min_score semantic_min_score : Q) (max_results : Z).

Definition perform (c : call) (w : world) : world :=
  match c with
  | CallGetEmbedding text => (get_embedding text w).2
  | CallSemanticSearch q vision_results =>
      (semantic_search q vision_results w).2
  | CallHybridSearch q vision_results kmin smin max_results =>
      (hybrid_search q vision_results kmin smin max_results w).2
  end.

(** The calls of a session, one after the other. *)
Definition session (calls : list call) (w : world) : world :=
  fold_left (fun w c => perform c w) calls w.

(** *** Vocabulary of the statements *)

(** Every text sent to the provider was sent once and is cached. *)
Definition cache_ok (w : world) : Prop :=
  NoDup (requests w) /\
  forall t : string,
    t ∈ requests w -> is_Some (embedding_cache (self w) !! t).

(** The two weights of the object are those it had. *)
Definition same_weights (w w' : world) : Prop :=
  keyword_weight (self w') = keyword_weight (self w) /\
  semantic_weight (self w') = semantic_weight (self w).

(** [w'] still holds every vector [w] holds. *)
Definition extends (w w' : world) : Prop :=
  forall (t : string) (v : Vec),
    embedding_cache (self w) !! t = Some v ->
    embedding_cache (self w') !! t = Some v.

(** [s] is the cosine of the vectors [w] holds for the description of
    the query [q] and for that of the candidate [c]. *)
Definition cosine_of (w : world) (q c : room_json) (s : Q) : Prop :=
  exists query_embedding vision_embedding : Vec,
    embedding_cache (self w) !! query_description q
      = Some query_embedding /\
    embedding_cache (self w) !! get (description c) ""
      = Some vision_embedding /\
    s = cosine_similarity query_embedding vision_embedding.

End Semantic.

Arguments Instance {Vec} _ _ _.
Arguments embedding_cache {Vec} _.
Arguments keyword_weight {Vec} _.
Arguments semantic_weight {Vec} _.
Arguments World {Vec} _ _.
Arguments self {Vec} _.
Arguments requests {Vec} _.
Arguments cache_ok {Vec} _.
Arguments extends {Vec} _ _.
Arguments same_weights {Vec} _ _.
Arguments get_embedding {Vec} provider text _.
Arguments semantic_loop {Vec} provider cosine_similarity _ _ _ _.
Arguments semantic_search {Vec} provider cosine_similarity _ _ _.
Arguments hybrid_ranked {Vec} provider cosine_similarity set_iter _ _ _ _ _.
Arguments hybrid_search {Vec} provider cosine_similarity set_iter _ _ _ _ _ _.
Arguments perform {Vec} provider cosine_similarity set_iter _ _.
Arguments session {Vec} provider cosine_similarity set_iter _ _.
Arguments cosine_of {Vec} cosine_similarity _ _ _ _.

(** The candidates that carry a description (line 180). *)
Definition described (items : list (string * room_json))
  : list (string * room_json) :=
  filter (fun item => Str.truthy (get (description item.2) "") = true) items.

(** ** A small corpus *)

Module Sample.

Definition query : room_json :=
  RoomJson (Some "Double") (Some 2%Z) (Some "sea")
    (Some ["balcony"; "Air conditioning"])
    (Some "double room with sea view").

(** A query that constrains nothing. *)
Definition open_query : room_json :=
  RoomJson (Some "Any") (Some 0%Z) (Some "standard") (Some []) None.

(** A query that lists one feature twice. *)
Definition twice : room_json :=
  RoomJson None None None (Some ["wifi"; "pool"; "WiFi"]) None.

Definition image1 : room_json :=
  RoomJson (Some "double") (Some 2%Z) (Some "sea view")
    (Some ["private balcony"; "air conditioning"; "TV"])
    (Some "spacious double room").

Definition image3 : room_json :=
  RoomJson (Some "single") (Some 1%Z) (Some "sea view")
    (Some ["balcony"; "air conditioning"])
    (Some "double room with sea view").

(** An image whose analysis carries no description. *)
Definition image6 : room_json :=
  RoomJson (Some "double") (Some 3%Z) (Some "garden view")
    (Some ["free wifi"]) (Some "").

Definition vision_results : list (string * room_json) :=
  [("image1.jpg", image1); ("image3.jpg", image3); ("image6.jpg", image6)].

(** A stand-in provider: the vector of a text is its length. *)
Definition provider (asked : list string) (text : string) : nat :=
  String.length text.

(** A stand-in similarity. *)
Definition cosine_similarity (a b : nat) : Q :=
  if Nat.eqb a b then 1%Q else (2 # 5)%Q.

Definition fresh : world nat := init nat None None.

End Sample.

(** ** More of [hybrid_search.py]: reading [match_details] back *)

(** The points a scalar entry of [match_details] stands for: none when
    the key is absent, one towards [max_score] when it is present and one
    towards [score] when its ["match"] is set. *)
Definition entry_score {A : Type} (e : option (field_detail A)) : Q :=
  match e with Some d => point (fd_match d) | None => 0%Q end.

Definition entry_max {A : Type} (e : option (field_detail A)) : Q :=
  match e with Some _ => 1%Q | None => 0%Q end.

(** [score] and [max_score] as the entries of a [match_details] tell
    them. *)
Definition details_score (md : match_details) : Q :=
  (entry_score (md_room_type md) + entry_score (md_max_capacity md)
   + entry_score (md_view_type md)
   + match md_features md with
     | Some fd => len_Q (ft_matches fd)
     | None => 0
     end)%Q.

Definition details_max_score (md : match_details) : Q :=
  (entry_max (md_room_type md) + entry_max (md_max_capacity md)
   + entry_max (md_view_type md)
   + match md_features md with
     | Some fd => len_Q (ft_query fd)
     | None => 0
     end)%Q.

(** ** [format_search_results] *)

(** [str(n)] for an int. *)
Definition str_int (z : Z) : string := NilZero.string_of_int (Z.to_int z).

(** [str(len(l))] *)
Definition str_len {A : Type} (l : list A) : string :=
  str_int (Z.of_nat (length l)).

(** The characters an f-string of the source writes with an escape. *)
Definition nl : string := String (ascii_of_nat 10) EmptyString.
Definition dquote : string := String (ascii_of_nat 34) EmptyString.

(** [sep.join(l)] *)
Fixpoint join (sep : string) (l : list string) : string :=
  match l with
  | [] => ""
  | [x] => x
  | x :: rest => (x ++ sep ++ join sep rest)%string
  end.

(** [d.get(key)] on the items of a dict. *)
Fixpoint dict_get {V : Type} (key : string) (items : list (string * V))
  : option V :=
  match items with
  | [] => None
  | (k, v) :: rest => if String.eqb k key then Some v else dict_get key rest
  end.

(** The check mark and the cross of [match_text]. *)
Definition match_text (b : bool) : string := if b then "✓" else "✗".

(** [query_feature in feature_info["matches"]] *)
Definition ticked (fd : features_detail) (query_feature : string) : bool :=
  existsb (String.eqb query_feature) (ft_matches fd).

Section Formatting.
(** [format(x, ".2f")], Python's fixed-point rendering of a float. *)
Variable fmt2 : Q -> string.

Local Open Scope string_scope.

(** Lines 273-276 and 285-288: a string-valued entry. *)
Definition format_text_entry (label : string)
    (entry : option (field_detail string)) (output : string) : string :=
  match entry with
  | Some info =>
      output ++ label ++ ": " ++ match_text (fd_match info) ++ " Query: '"
        ++ fd_query info ++ "', Found: '" ++ fd_vision info ++ "'" ++ nl
  | None => output
  end.

(** Lines 279-282: the capacity entry. *)
Definition format_capacity_entry (entry : option (field_detail Z))
    (output : string) : string :=
  match entry with
  | Some capacity_info =>
      output ++ "Capacity: " ++ match_text (fd_match capacity_info)
        ++ " Query: " ++ str_int (fd_query capacity_info)
        ++ ", Found: " ++ str_int (fd_vision capacity_info) ++ nl
  | None => output
  end.

(** Lines 296-298: one line per query feature. *)
Fixpoint format_feature_lines (feature_info : features_detail)
    (query : list string) (output : string) : string :=
  match query with
  | [] => output
  | query_feature :: rest =>
      format_feature_lines feature_info rest
        (output ++ "  " ++ match_text (ticked feature_info query_feature)
           ++ " " ++ query_feature ++ nl)
  end.

(** Lines 291-300: the features entry. *)
Definition format_features_entry (entry : option features_detail)
    (output : string) : string :=
  match entry with
  | Some feature_info =>
      let output :=
        output ++ "Features (" ++ str_len (ft_matches feature_info) ++ "/"
          ++ str_len (ft_query feature_info) ++ "):" ++ nl in
      let output :=
        format_feature_lines feature_info (ft_query feature_info) output in
      output ++ "Found in room: " ++ join ", " (ft_vision feature_info) ++ nl
  | None => output
  end.

(** The body of the loop (lines 267-310) for the hit of rank [i]. *)
Definition format_hit (vision_results : list (string * room_json))
    (i : nat) (h : keyword_hit) (output : string) : string :=
  let '(url, combined_score, details) := h in
  let output := output ++ "Match #" ++ str_int (Z.of_nat i) ++ ": " ++ url
                  ++ nl in
  let output := output ++ "Combined Score: " ++ fmt2 combined_score ++ nl in
  let output :=
    output ++ "Keyword Score: " ++ fmt2 (get (md_keyword_score details) 0%Q)
      ++ nl in
  let output :=
    output ++ "Semantic Score: "
      ++ fmt2 (get (md_semantic_score details) 0%Q) ++ nl in
  let output := format_text_entry "Room Type" (md_room_type details) output in
  let output := format_capacity_entry (md_max_capacity details) output in
  let output := format_text_entry "View" (md_view_type details) output in
  let output := format_features_entry (md_features details) output in
  let query_description := get (md_query_description details) "N/A" in
  let vision_description :=
    match dict_get url vision_results with
    | Some vision_json => get (description vision_json) "N/A"
    | None => "N/A"
    end in
  let output :=
    output ++ "Query Description: " ++ dquote ++ query_description ++ dquote
      ++ nl in
  let output :=
    output ++ "Room Description: " ++ dquote ++ vision_description ++ dquote
      ++ nl in
  output ++ nl.

(** The loop over [enumerate(search_results, 1)], from rank [i] on. *)
Fixpoint format_loop (vision_results : list (string * room_json))
    (i : nat) (hits : list keyword_hit) (output : string) : string :=
  match hits with
  | [] => output
  | h :: rest =>
      format_loop vision_results (S i) rest
        (format_hit vision_results i h output)
  end.

(** [format_search_results] (lines 250-312). *)
Definition format_search_results (search_results : list keyword_hit)
    (vision_results : list (string * room_json)) : string :=
  match search_results with
  | [] => "No matching rooms found."
  | _ :: _ =>
      format_loop vision_results 1 search_results
        ("Found " ++ str_len search_results ++ " matching rooms:" ++ nl ++ nl)
  end.

End Formatting.

(** ** Vocabulary of the further statements *)

(** The elements of [l] whose key is [k], in the order of [l]. *)
Definition with_key {A : Type} (key : A -> Q) (k : Q) (l : list A)
  : list A :=
  List.filter (fun x => Qeq_bool (key x) k) l.

(** Line 147 on the numbers read back from a [match_details]. *)
Definition details_normalized (md : match_details) : Q :=
  if Qlt_le_dec 0 (details_max_score md)
  then (details_score md / details_max_score md)%Q
  else 0%Q.

(** The hits that reach the threshold [m], in the order of [l]. *)
Definition at_least (m : Q) (l : list keyword_hit) : list keyword_hit :=
  List.filter (fun h => Qle_bool m (hit_score h)) l.

(** The text [format_search_results] adds for the hit of rank [i], and
    for a run of hits from rank [i] on. *)
Definition format_block (fmt2 : Q -> string)
    (vision_results : list (string * room_json)) (i : nat) (h : keyword_hit)
  : string :=
  format_hit fmt2 vision_results i h "".

Fixpoint format_blocks (fmt2 : Q -> string)
    (vision_results : list (string * room_json)) (i : nat)
    (hits : list keyword_hit) : string :=
  match hits with
  | [] => ""
  | h :: rest =>
      (format_block fmt2 vision_results i h
       ++ format_blocks fmt2 vision_results (S i) rest)%string
  end.

(** ** Dict assignment *)

(** [d[key] = v] on the items of a dict: a key that is present keeps its
    place and takes the new value, a new key goes to the end. *)
Fixpoint dict_set {V : Type} (key : string) (v : V)
    (items : list (string * V)) : list (string * V) :=
  match items with
  | [] => [(key, v)]
  | (k, x) :: rest =>
      if String.eqb k key then (k, v) :: rest
      else (k, x) :: dict_set key v rest
  end.

(** ** [semantic_search.py]: the class [SemanticSearch] *)

Module SemanticSearch.
Section Class.
(** [np.ndarray] *)
Variable Vec : Type.

(** The embedding provider, as for [HybridSearch]. *)
Variable provider : list string -> string -> Vec.

(** sklearn's [cosine_similarity] on one row against one row. *)
Variable cosine_similarity : Vec -> Vec -> Q.

(** The object ([embedding_cache] is its only attribute) and the log of
    texts sent to the provider. *)
Record world : Type := World {
  embedding_cache : gmap string Vec;
  requests : list string
}.

(** [SemanticSearch()] *)
Definition init : world := World ∅ [].

(** [get_embedding] (lines 15-27). *)
Definition get_embedding (text : string) (w : world) : Vec * world :=
  match embedding_cache w !! text with
  | Some embedding => (embedding, w)
  | None =>
      let embedding := provider (requests w) text in
      (embedding,
       World (<[text := embedding]> (embedding_cache w))
         (requests w ++ [text]))
  end.

(** [calculate_similarities] (lines 29-34).  [np.vstack] raises
    [ValueError] on an empty list: [None]. *)
Definition calculate_similarities (query_embedding : Vec)
    (text_embeddings : list Vec) : option (list Q) :=
  match text_embeddings with
  | [] => None
  | _ :: _ => Some (map (cosine_similarity query_embedding) text_embeddings)
  end.

(** The text built for one image (lines 42-46). *)
Definition description_text (info : room_json) : string :=
  ("Room type: " ++ get (room_type info) "" ++ ", "
   ++ "View: " ++ get (view_type info) "" ++ ", "
   ++ "Features: " ++ join ", " (get (features info) []) ++ ", "
   ++ "Max capacity: " ++ str_int (get (max_capacity info) 0%Z) ++ ", "
   ++ "Description: " ++ get (description info) "")%string.

(** The loop of [create_image_embeddings] (lines 40-50). *)
Fixpoint create_loop (items : list (string * room_json))
    (embeddings : list (string * Vec)) (w : world)
  : list (string * Vec) * world :=
  match items with
  | [] => (embeddings, w)
  | (url, info) :: rest =>
      let '(embedding, w') := get_embedding (description_text info) w in
      create_loop rest (dict_set url embedding embeddings) w'
  end.

(** [create_image_embeddings] (lines 36-52). *)
Definition create_image_embeddings
    (image_descriptions : list (string * room_json)) (w : world)
  : list (string * Vec) * world :=
  create_loop image_descriptions [] w.

(** [semantic_search] (lines 54-77); [None] when
    [calculate_similarities] raises. *)
Definition semantic_search (query : string)
    (image_descriptions : list (string * room_json)) (threshold : Q)
    (w : world) : option (list (string * Q)) * world :=
  let '(query_embedding, w1) := get_embedding query w in
  let '(image_embeddings, w2) :=
    create_image_embeddings image_descriptions w1 in
  match calculate_similarities query_embedding image_embeddings.*2 with
  | None => (None, w2)
  | Some similarities =>
      let url_score_pairs := zip image_embeddings.*1 similarities in
      let filtered_results :=
        List.filter (fun us => Qle_bool threshold us.2) url_score_pairs in
      (Some (sorted_desc snd filtered_results), w2)
  end.

(** [s] is the similarity of the vectors [w] holds for [query] and for
    the text of [info]. *)
Definition similarity_of (w : world) (query : string) (info : room_json)
    (s : Q) : Prop :=
  exists query_embedding text_embedding : Vec,
    embedding_cache w !! query = Some query_embedding /\
    embedding_cache w !! description_text info = Some text_embedding /\
    s = cosine_similarity query_embedding text_embedding.

(** Every text sent to the provider was sent once and is cached. *)
Definition cache_ok (w : world) : Prop :=
  NoDup (requests w) /\
  forall t : string, t ∈ requests w -> is_Some (embedding_cache w !! t).

(** [w'] still holds every vector [w] holds. *)
Definition extends (w w' : world) : Prop :=
  forall (t : string) (v : Vec),
    embedding_cache w !! t = Some v -> embedding_cache w' !! t = Some v.

End Class.

Arguments World {Vec} _ _.
Arguments cache_ok {Vec} _.
Arguments extends {Vec} _ _.
Arguments embedding_cache {Vec} _.
Arguments requests {Vec} _.
Arguments get_embedding {Vec} provider text _.
Arguments calculate_similarities {Vec} cosine_similarity _ _.
Arguments create_loop {Vec} provider _ _ _.
Arguments create_image_embeddings {Vec} provider _ _.
Arguments semantic_search {Vec} provider cosine_similarity _ _ _ _.
Arguments similarity_of {Vec} cosine_similarity _ _ _ _.
End SemanticSearch.

(** ** [query_agent.py]: [QueryAgent.process_query] *)

Module QueryAgent.

(** The record returned when the call to the language model or the
    parsing of its answer raises [e] (lines 75-84). *)
Definition fallback (e : string) : room_json :=
  RoomJson (Some "any") (Some 2%Z) (Some "any") (Some [])
    (Some ("Error processing query: " ++ e)%string).

Section Agent.
(** The call to the language model followed by [json.loads]: the parsed
    object, or the text of the exception raised. *)
Variable chat : string -> string + room_json.

(** [process_query] (lines 22-84). *)
Definition process_query (user_query : string) : room_json :=
  match chat user_query with
  | inr result => result
  | inl e => fallback e
  end.
End Agent.

End QueryAgent.

(** ** [vision_agent.py]: [VisionAgent.analyze_image], [analyze_images] *)

Module VisionAgent.

(** The record returned when fetching or analysing an image raises [e]
    (lines 110-118). *)
Definition failed (e : string) : room_json :=
  RoomJson (Some "unknown") (Some 0%Z) (Some "unknown") (Some [])
    (Some ("Failed to analyze image: " ++ e)%string).

Section Agent.
(** Fetching the image, the call to the vision model and [json.loads]:
    the parsed object, or the text of the exception raised.  The answer
    may depend on the images analysed before. *)
Variable vision : list string -> string -> bool -> string + room_json.

(** The object: [image_descriptions], and the log of images sent for
    analysis. *)
Record world : Type := World {
  image_descriptions : list (string * room_json);
  analyzed : list string
}.

(** [VisionAgent()] *)
Definition init : world := World [] [].

(** [analyze_image] (lines 41-118). *)
Definition analyze_image (image_path_or_url : string) (is_local : bool)
    (w : world) : room_json * world :=
  match vision (analyzed w) image_path_or_url is_local with
  | inr description =>
      (description,
       World (dict_set image_path_or_url description (image_descriptions w))
         (analyzed w ++ [image_path_or_url]))
  | inl e =>
      (failed e,
       World (image_descriptions w) (analyzed w ++ [image_path_or_url]))
  end.

(** What comes of sending [url] for analysis after the images in
    [log]: the parsed answer, or the record of the failure. *)
Definition outcome (log : list string) (url : string) : room_json :=
  match vision log url false with
  | inr description => description
  | inl e => failed e
  end.

(** The loop of [analyze_images]. *)
Fixpoint analyze_loop (image_urls : list string)
    (results : list (string * room_json)) (w : world)
  : list (string * room_json) * world :=
  match image_urls with
  | [] => (results, w)
  | url :: rest =>
      let '(description, w') := analyze_image url false w in
      analyze_loop rest (dict_set url description results) w'
  end.

(** [analyze_images] (lines 120-125). *)
Definition analyze_images (image_urls : list string) (w : world)
  : list (string * room_json) * world :=
  analyze_loop image_urls [] w.
End Agent.

End VisionAgent.

(** ** Stand-ins for the two models *)

Module Scene.

(** A language model that fails on the empty prompt. *)
Definition chat (user_query : string) : string + room_json :=
  if String.eqb user_query "" then inl "empty prompt" else inr Sample.query.

(** A vision model that knows one image. *)
Definition vision (log : list string) (url : string) (is_local : bool)
  : string + room_json :=
  if String.eqb url "image1.jpg" then inr Sample.image1
  else inl "Failed to download image: 404".

End Scene.

(** ** Variants of a record *)


(** The candidate [c] with capacity [n]. *)
Definition with_capacity (c : room_json) (n : Z) : room_json :=
  RoomJson (room_type c) (Some n) (view_type c) (features c)
    (description c).

(** * Facts about strings *)

Module StrFacts.
Import Str.

Lemma starts_with_split (p s : string) :
  starts_with p s = true <-> exists post : string, s = (p ++ post)%string.
Proof.
  revert s; induction p as [|a p IH]; intros s; simpl.
  - split; [intros _; now exists s | reflexivity].
  - destruct s as [|b s].
    + split; [discriminate | intros [post H]; discriminate].
    + destruct (Ascii.eqb_spec a b) as [->|Hab].
      * rewrite IH. split; intros [post H]; exists post.
        -- now rewrite H.
        -- now injection H.
      * split; [discriminate | intros [post H]].
        injection H as H1 H2. now destruct Hab.
Qed.

Lemma contains_substring (sub s : string) :
  contains sub s = true <-> Substring sub s.
Proof.
  unfold Substring. induction s as [|c s IH].
  - cbn [contains]. rewrite starts_with_split. split.
    + intros [post H]. now exists "", post.
    + intros [pre [post H]]. destruct pre; [now exists post | discriminate].
  - cbn [contains]. rewrite orb_true_iff, starts_with_split, IH. split.
    + intros [[post H] | [pre [post H]]].
      * now exists "", post.
      * exists (String c pre), post. simpl. now rewrite H.
    + intros [pre [post H]]. destruct pre as [|d pre].
      * left. now exists post.
      * right. simpl in H. injection H as _ H. now exists pre, post.
Qed.

Lemma truthy_nonempty (s : string) : truthy s = true <-> s <> "".
Proof. destruct s; simpl; split; congruence. Qed.

End StrFacts.

(** * Facts about the tally *)

Lemma len_Q_nonneg {A : Type} (l : list A) : (0 <= len_Q l)%Q.
Proof. unfold len_Q, Qle; simpl. lia. Qed.

Lemma len_Q_nil (A : Type) : len_Q (@nil A) = 0%Q.
Proof. reflexivity. Qed.

Lemma len_Q_le {A B : Type} (l : list A) (k : list B) :
  length l <= length k -> (len_Q l <= len_Q k)%Q.
Proof. intros H. unfold len_Q, Qle; simpl. lia. Qed.

Lemma len_Q_cons {A : Type} (l : list A) (x : A) :
  (len_Q (x :: l) == len_Q l + 1)%Q.
Proof.
  unfold len_Q. cbn [length]. rewrite Nat2Z.inj_succ.
  unfold Z.succ. rewrite inject_Z_plus. reflexivity.
Qed.

Lemma point_bounds (b : bool) : (0 <= point b <= 1)%Q.
Proof. destruct b; simpl; lra. Qed.

Lemma inner_loop_exists (f : string) (vfs : list string) :
  inner_loop f vfs = true <->
  exists vf : string, vf ∈ vfs /\ Str.Substring f vf.
Proof.
  induction vfs as [|vf vfs IH]; simpl.
  - split; [discriminate | intros (vf & H & _); inversion H].
  - destruct (Str.contains f vf) eqn:E.
    + split; [intros _ | reflexivity].
      exists vf. split; [left | now apply StrFacts.contains_substring].
    + rewrite IH. split.
      * intros (v & Hv & Hs). exists v. split; [now right | exact Hs].
      * intros (v & Hv & Hs). inversion Hv; subst.
        -- apply StrFacts.contains_substring in Hs. congruence.
        -- now exists v.
Qed.

Lemma inner_loop_app (f : string) (vfs extra : list string) :
  inner_loop f vfs = true -> inner_loop f (vfs ++ extra) = true.
Proof.
  rewrite !inner_loop_exists. intros (v & Hv & Hs).
  exists v. split; [apply elem_of_app; now left | exact Hs].
Qed.

(** The outer loop appends the matching query features, in order, and
    adds one point for each. *)
Lemma outer_loop_filter (qfs vfs acc : list string) (s : Q) :
  let hits := filter (fun f => inner_loop f vfs = true) qfs in
  (outer_loop qfs vfs acc s).1 = acc ++ hits /\
  ((outer_loop qfs vfs acc s).2 == s + len_Q hits)%Q.
Proof.
  revert acc s. induction qfs as [|f qfs IH]; intros acc s; cbn zeta.
  - simpl. rewrite app_nil_r. split; [reflexivity|].
    unfold len_Q; simpl. ring.
  - cbn [outer_loop]. destruct (inner_loop f vfs) eqn:E.
    + rewrite filter_cons_True by exact E.
      destruct (IH (acc ++ [f]) (s + 1)%Q) as [H1 H2].
      rewrite H1, H2, <- app_assoc. split; [reflexivity|].
      rewrite len_Q_cons. ring.
    + rewrite filter_cons_False by congruence. apply IH.
Qed.

Lemma score_closed_form (q c : room_json) :
  (score (score_candidate q c) ==
     point (room_active q && room_match q c)
     + point (capacity_active q && capacity_match q c)
     + point (view_active q && view_match q c)
     + len_Q (matched q c))%Q.
Proof.
  unfold score_candidate, features_block.
  destruct (features_active q) eqn:Ef.
  - match goal with |- context [outer_loop ?a ?b ?c ?d] =>
      pose proof (outer_loop_filter a b c d) as [H1 H2];
      destruct (outer_loop a b c d) as [m s] end.
    cbn [fst snd] in H1, H2. cbn [score]. rewrite H2.
    fold (matched q c).
    unfold view_block, capacity_block, room_block.
    destruct (room_active q), (capacity_active q), (view_active q),
      (room_match q c), (capacity_match q c), (view_match q c);
      cbn [score bump point andb]; ring.
  - assert (Hm : matched q c = []).
    { unfold matched. unfold features_active in Ef.
      destruct (query_features q); [reflexivity | discriminate]. }
    rewrite Hm.
    unfold view_block, capacity_block, room_block.
    destruct (room_active q), (capacity_active q), (view_active q),
      (room_match q c), (capacity_match q c), (view_match q c);
      cbn [score bump point andb]; rewrite (len_Q_nil string); ring.
Qed.

Lemma max_score_closed_form (q c : room_json) :
  (max_score (score_candidate q c) ==
     point (room_active q) + point (capacity_active q)
     + point (view_active q) + len_Q (query_features q))%Q.
Proof.
  unfold score_candidate, features_block.
  destruct (features_active q) eqn:Ef.
  - destruct (outer_loop _ _ _ _) as [m s]. cbn [max_score].
    unfold view_block, capacity_block, room_block.
    destruct (room_active q), (capacity_active q), (view_active q);
      cbn [max_score point]; ring.
  - unfold features_active in Ef.
    destruct (query_features q) eqn:Eq; [|discriminate].
    unfold view_block, capacity_block, room_block.
    destruct (room_active q), (capacity_active q), (view_active q);
      cbn [max_score point]; rewrite (len_Q_nil string); ring.
Qed.

(** [max_score] is computed from the query alone. *)
Lemma max_score_query_only (q c c' : room_json) :
  (max_score (score_candidate q c) == max_score (score_candidate q c'))%Q.
Proof. now rewrite !max_score_closed_form. Qed.

Lemma matched_length (q c : room_json) :
  length (matched q c) <= length (query_features q).
Proof. apply length_filter. Qed.

Lemma score_nonneg (q c : room_json) : (0 <= score (score_candidate q c))%Q.
Proof.
  rewrite score_closed_form.
  pose proof (point_bounds (room_active q && room_match q c)).
  pose proof (point_bounds (capacity_active q && capacity_match q c)).
  pose proof (point_bounds (view_active q && view_match q c)).
  pose proof (len_Q_nonneg (matched q c)). lra.
Qed.

Lemma score_le_max_score (q c : room_json) :
  (score (score_candidate q c) <= max_score (score_candidate q c))%Q.
Proof.
  rewrite score_closed_form, max_score_closed_form.
  pose proof (len_Q_le _ _ (matched_length q c)).
  assert (Hp : forall a b, (point (a && b) <= point a)%Q).
  { intros [] []; simpl; lra. }
  pose proof (Hp (room_active q) (room_match q c)).
  pose proof (Hp (capacity_active q) (capacity_match q c)).
  pose proof (Hp (view_active q) (view_match q c)). lra.
Qed.

Lemma normalize_div (t : tally) :
  (0 < max_score t)%Q -> normalize t = (score t / max_score t)%Q.
Proof.
  intros H. unfold normalize. destruct Qlt_le_dec; [reflexivity | lra].
Qed.

Lemma normalize_zero (t : tally) :
  (max_score t <= 0)%Q -> normalize t = 0%Q.
Proof.
  intros H. unfold normalize. destruct Qlt_le_dec; [lra | reflexivity].
Qed.

(** * Facts about sorting and slicing *)

Section SortingFacts.
Context {A : Type} (key : A -> Q).

Lemma insert_desc_perm (x : A) (l : list A) :
  insert_desc key x l ≡ₚ x :: l.
Proof.
  induction l as [|y l IH]; simpl; [reflexivity|].
  destruct (Qle_bool (key y) (key x)); [reflexivity|].
  rewrite IH. apply Permutation_swap.
Qed.

Lemma sorted_desc_perm (l : list A) : sorted_desc key l ≡ₚ l.
Proof.
  induction l as [|x l IH]; simpl; [reflexivity|].
  now rewrite insert_desc_perm, IH.
Qed.

Lemma sorted_desc_elem (x : A) (l : list A) :
  x ∈ sorted_desc key l <-> x ∈ l.
Proof. now rewrite sorted_desc_perm. Qed.

Lemma insert_desc_hd (x a : A) (l : list A) :
  (key x <= key a)%Q ->
  HdRel (fun u v => (key v <= key u)%Q) a l ->
  HdRel (fun u v => (key v <= key u)%Q) a (insert_desc key x l).
Proof.
  intros Hx Hl. destruct l as [|y l]; simpl.
  - now constructor.
  - destruct (Qle_bool (key y) (key x)); constructor; auto.
    now inversion Hl.
Qed.

Lemma insert_desc_descending (x : A) (l : list A) :
  descending key l -> descending key (insert_desc key x l).
Proof.
  unfold descending. induction 1 as [|y l Hs IH Hh]; simpl.
  - repeat constructor.
  - destruct (Qle_bool (key y) (key x)) eqn:E.
    + apply Qle_bool_iff in E. repeat constructor; auto.
    + constructor; [exact IH|]. apply insert_desc_hd; [|exact Hh].
      destruct (Qlt_le_dec (key x) (key y)) as [Hlt|Hle].
      * now apply Qlt_le_weak.
      * apply Qle_bool_iff in Hle. congruence.
Qed.

Lemma sorted_desc_descending (l : list A) :
  descending key (sorted_desc key l).
Proof.
  induction l as [|x l IH]; simpl; [constructor|].
  now apply insert_desc_descending.
Qed.

Lemma descending_prefix (l k : list A) :
  l `prefix_of` k -> descending key k -> descending key l.
Proof.
  intros [r ->]. unfold descending.
  induction l as [|x l IH]; intros H; [constructor|].
  inversion H as [|? ? Hs Hh]; subst. constructor; [now apply IH|].
  destruct l; constructor. now inversion Hh.
Qed.
End SortingFacts.

Lemma slice_to_prefix {A : Type} (n : Z) (l : list A) :
  slice_to n l `prefix_of` l.
Proof. unfold slice_to. destruct (0 <=? n)%Z; apply prefix_take. Qed.

Lemma slice_to_length {A : Type} (n : Z) (l : list A) :
  (0 <= n)%Z -> (Z.of_nat (length (slice_to n l)) <= n)%Z.
Proof.
  intros H. unfold slice_to.
  destruct (Z.leb_spec 0 n); [|lia]. rewrite length_take. lia.
Qed.

(** * Facts about [keyword_search] *)

Lemma keyword_loop_filter (q : room_json) (items : list (string * room_json))
    (min_score : Q) (results : list keyword_hit) :
  keyword_loop q items min_score results =
  results ++ map (hit_of q) (kept q min_score items).
Proof.
  unfold kept.
  revert results. induction items as [|[url c] items IH]; intros results.
  - simpl. now rewrite app_nil_r.
  - cbn [keyword_loop].
    destruct (Qle_bool min_score (normalize (score_candidate q c))) eqn:E.
    + rewrite IH, filter_cons_True by exact E.
      now rewrite <- app_assoc.
    + rewrite IH, filter_cons_False; [reflexivity|].
      unfold passes, normalized_score. simpl. congruence.
Qed.

Lemma keyword_search_perm (q : room_json)
    (vision_results : list (string * room_json)) (min_score : Q) :
  keyword_search q vision_results min_score ≡ₚ
  map (hit_of q) (kept q min_score vision_results).
Proof.
  unfold keyword_search. now rewrite sorted_desc_perm, keyword_loop_filter.
Qed.

Lemma keyword_search_urls (q : room_json)
    (vision_results : list (string * room_json)) (min_score : Q) :
  map hit_url (keyword_search q vision_results min_score) ≡ₚ
  (kept q min_score vision_results).*1.
Proof.
  rewrite keyword_search_perm, map_map.
  erewrite map_ext; [reflexivity|]. now intros [url c].
Qed.

Lemma keyword_search_urls_NoDup (q : room_json)
    (vision_results : list (string * room_json)) (min_score : Q) :
  NoDup vision_results.*1 ->
  NoDup (map hit_url (keyword_search q vision_results min_score)).
Proof.
  intros H. rewrite keyword_search_urls. unfold kept.
  induction vision_results as [|[url c] l IH]; simpl; [constructor|].
  inversion H as [|? ? Hn Hl]; subst.
  destruct (decide (passes q min_score (url, c) = true)) as [Hp|Hp].
  - rewrite filter_cons_True by exact Hp. simpl. constructor; [|auto].
    intros Hin. apply Hn. apply list_elem_of_fmap in Hin as ([u d] & -> & Hin).
    apply list_elem_of_filter in Hin as [_ Hin].
    apply list_elem_of_fmap. now exists (u, d).
  - rewrite filter_cons_False by exact Hp. auto.
Qed.

(** * Facts about dict comprehensions *)

Section DictFacts.
Context {V : Type}.

Abbreviation store :=
  (fold_left (fun (m : gmap string V) kv => <[kv.1 := kv.2]> m)).

Lemma store_lookup_other (l : list (string * V)) (m : gmap string V)
    (k : string) :
  k ∉ l.*1 -> store l m !! k = m !! k.
Proof.
  revert m. induction l as [|[k' v'] l IH]; intros m Hk; [reflexivity|].
  simpl. rewrite fmap_cons in Hk. apply not_elem_of_cons in Hk as [Hne Hk].
  rewrite IH by exact Hk. simpl in Hne. now rewrite lookup_insert_ne.
Qed.

Lemma store_lookup_here (l : list (string * V)) (m : gmap string V)
    (k : string) (v : V) :
  NoDup l.*1 -> (k, v) ∈ l -> store l m !! k = Some v.
Proof.
  revert m. induction l as [|[k' v'] l IH]; intros m Hnd Hin.
  - inversion Hin.
  - rewrite fmap_cons in Hnd. apply NoDup_cons in Hnd as [Hk' Hnd].
    simpl. apply elem_of_cons in Hin as [Heq|Hin].
    + injection Heq as -> ->. rewrite store_lookup_other by exact Hk'.
      apply lookup_insert_eq.
    + now apply IH.
Qed.

Lemma store_lookup_from (l : list (string * V)) (m : gmap string V)
    (k : string) (v : V) :
  store l m !! k = Some v -> (k, v) ∈ l \/ m !! k = Some v.
Proof.
  revert m. induction l as [|[k' v'] l IH]; intros m H; [now right|].
  simpl in H. apply IH in H as [H|H]; [left; now right|].
  destruct (decide (k' = k)) as [->|Hne].
  - rewrite lookup_insert_eq in H. injection H as ->. left. left.
  - rewrite lookup_insert_ne in H by exact Hne. now right.
Qed.

Lemma store_dom (l : list (string * V)) (m : gmap string V) (k : string) :
  k ∈ dom (store l m) <-> k ∈ l.*1 \/ k ∈ dom m.
Proof.
  revert m. induction l as [|[k' v'] l IH]; intros m; simpl.
  - split; [now right | intros [H|H]; [inversion H | exact H]].
  - rewrite IH, dom_insert, elem_of_union, elem_of_singleton.
    rewrite elem_of_cons. simpl. tauto.
Qed.

Lemma dict_of_lookup (l : list (string * V)) (k : string) (v : V) :
  NoDup l.*1 -> dict_of l !! k = Some v <-> (k, v) ∈ l.
Proof.
  intros Hnd. split.
  - intros H. apply store_lookup_from in H as [H|H]; [exact H|].
    now rewrite lookup_empty in H.
  - now apply store_lookup_here.
Qed.

Lemma dict_of_lookup_elem (l : list (string * V)) (k : string) (v : V) :
  dict_of l !! k = Some v -> (k, v) ∈ l.
Proof.
  intros H. apply store_lookup_from in H as [H|H]; [exact H|].
  now rewrite lookup_empty in H.
Qed.

Lemma dict_of_dom (l : list (string * V)) (k : string) :
  k ∈ dom (dict_of l) <-> k ∈ l.*1.
Proof.
  unfold dict_of. rewrite store_dom, dom_empty_L, elem_of_empty. tauto.
Qed.
End DictFacts.

(** * Facts about the lookup tables of [hybrid_search] *)

Lemma keyword_scores_dom (kr : list keyword_hit) (url : string) :
  url ∈ dom (keyword_scores kr) <-> url ∈ map hit_url kr.
Proof.
  unfold keyword_scores. rewrite dict_of_dom.
  unfold fmap, list_fmap. fold (@map (string * Q) string fst).
  now rewrite map_map.
Qed.

Lemma keyword_scores_lookup (kr : list keyword_hit) (url : string) (s : Q) :
  NoDup (map hit_url kr) ->
  keyword_scores kr !! url = Some s <->
  exists md : match_details, (url, s, md) ∈ kr.
Proof.
  intros Hnd. unfold keyword_scores. rewrite dict_of_lookup.
  - rewrite list_elem_of_fmap. split.
    + intros ([[u s'] md] & Heq & Hin). injection Heq as -> ->.
      now exists md.
    + intros [md Hin]. now exists (url, s, md).
  - unfold fmap, list_fmap. fold (@map (string * Q) string fst).
    now rewrite map_map.
Qed.

Lemma semantic_scores_lookup_elem (sr : list (string * Q)) (smin : Q)
    (url : string) (s : Q) :
  semantic_scores sr smin !! url = Some s ->
  (url, s) ∈ sr /\ (smin <= s)%Q.
Proof.
  intros H. apply dict_of_lookup_elem, list_elem_of_filter in H as [H1 H2].
  split; [exact H2 | now apply Qle_bool_iff].
Qed.

Lemma semantic_scores_lookup (sr : list (string * Q)) (smin : Q)
    (url : string) (s : Q) :
  NoDup sr.*1 ->
  semantic_scores sr smin !! url = Some s <->
  (url, s) ∈ sr /\ (smin <= s)%Q.
Proof.
  intros Hnd. split; [apply semantic_scores_lookup_elem|].
  intros [Hin Hle]. apply dict_of_lookup.
  - clear Hin. induction sr as [|[u x] sr IH]; [constructor|].
    rewrite fmap_cons in Hnd. apply NoDup_cons in Hnd as [Hu Hnd].
    destruct (decide (Qle_bool smin x = true)) as [Hp|Hp].
    + rewrite filter_cons_True by exact Hp. rewrite fmap_cons.
      apply NoDup_cons. split; [|now apply IH].
      intros Hin. apply Hu. apply list_elem_of_fmap in Hin as (y & -> & Hy).
      apply list_elem_of_filter in Hy as [_ Hy].
      apply list_elem_of_fmap. now exists y.
    + rewrite filter_cons_False by exact Hp. now apply IH.
  - apply list_elem_of_filter. split; [now apply Qle_bool_iff | exact Hin].
Qed.

Lemma semantic_scores_dom (sr : list (string * Q)) (smin : Q) (url : string) :
  url ∈ dom (semantic_scores sr smin) <->
  exists s : Q, (url, s) ∈ sr /\ (smin <= s)%Q.
Proof.
  unfold semantic_scores. rewrite dict_of_dom, list_elem_of_fmap. split.
  - intros ([u s] & -> & Hin). apply list_elem_of_filter in Hin as [H1 H2].
    exists s. split; [exact H2 | now apply Qle_bool_iff].
  - intros (s & Hin & Hle). exists (url, s). split; [reflexivity|].
    apply list_elem_of_filter. split; [now apply Qle_bool_iff | exact Hin].
Qed.

Lemma kept_elem (q : room_json) (min_score : Q)
    (items : list (string * room_json)) (url : string) (c : room_json) :
  (url, c) ∈ kept q min_score items <->
  (url, c) ∈ items /\ (min_score <= normalized_score q c)%Q.
Proof.
  unfold kept. rewrite list_elem_of_filter. unfold passes. simpl.
  rewrite Qle_bool_iff. tauto.
Qed.

Lemma keyword_search_elem (q : room_json)
    (vision_results : list (string * room_json)) (min_score : Q)
    (h : keyword_hit) :
  h ∈ keyword_search q vision_results min_score <->
  exists c : room_json,
    (hit_url h, c) ∈ vision_results /\
    (min_score <= normalized_score q c)%Q /\
    h = hit_of q (hit_url h, c).
Proof.
  rewrite keyword_search_perm, list_elem_of_fmap. split.
  - intros ([url c] & -> & Hin). apply kept_elem in Hin as [Hin Hle].
    exists c. now repeat split.
  - intros (c & Hin & Hle & Heq). exists (hit_url h, c).
    split; [exact Heq | now apply kept_elem].
Qed.

Lemma keyword_search_url (q : room_json)
    (vision_results : list (string * room_json)) (min_score : Q)
    (url : string) :
  url ∈ map hit_url (keyword_search q vision_results min_score) <->
  exists c : room_json,
    (url, c) ∈ vision_results /\ (min_score <= normalized_score q c)%Q.
Proof.
  rewrite keyword_search_urls, list_elem_of_fmap. split.
  - intros ([u c] & -> & Hin). apply kept_elem in Hin. now exists c.
  - intros (c & Hin). exists (url, c). split; [reflexivity|].
    now apply kept_elem.
Qed.

(** In a dict each key has one value. *)
Lemma items_functional {V : Type} (items : list (string * V)) (k : string)
    (v v' : V) :
  NoDup items.*1 -> (k, v) ∈ items -> (k, v') ∈ items -> v = v'.
Proof.
  induction items as [|[k0 v0] items IH]; intros Hnd H1 H2.
  - inversion H1.
  - rewrite fmap_cons in Hnd. apply NoDup_cons in Hnd as [Hk Hnd].
    apply elem_of_cons in H1 as [E1|H1], H2 as [E2|H2].
    + congruence.
    + injection E1 as -> ->. exfalso. apply Hk.
      apply list_elem_of_fmap. now exists (k0, v').
    + injection E2 as -> ->. exfalso. apply Hk.
      apply list_elem_of_fmap. now exists (k0, v).
    + now apply IH.
Qed.

Lemma described_elem (items : list (string * room_json)) (url : string)
    (c : room_json) :
  (url, c) ∈ described items <->
  (url, c) ∈ items /\ get (description c) "" <> "".
Proof.
  unfold described. rewrite list_elem_of_filter. simpl.
  rewrite StrFacts.truthy_nonempty. tauto.
Qed.

Lemma described_NoDup (items : list (string * room_json)) :
  NoDup items.*1 -> NoDup (described items).*1.
Proof.
  unfold described. induction items as [|[url c] items IH]; intros Hnd.
  - constructor.
  - rewrite fmap_cons in Hnd. apply NoDup_cons in Hnd as [Hu Hnd].
    destruct (decide (Str.truthy (get (description c) "") = true)) as [Hp|Hp].
    + rewrite filter_cons_True by exact Hp. rewrite fmap_cons.
      apply NoDup_cons. split; [|now apply IH].
      intros Hin. apply Hu. apply list_elem_of_fmap in Hin as (y & -> & Hy).
      apply list_elem_of_filter in Hy as [_ Hy].
      apply list_elem_of_fmap. now exists y.
    + rewrite filter_cons_False by exact Hp. now apply IH.
Qed.

Lemma filter_length_mono {A : Type} (P R : A -> Prop)
    `{forall x, Decision (P x)} `{forall x, Decision (R x)} (l : list A) :
  (forall x, P x -> R x) -> length (filter P l) <= length (filter R l).
Proof.
  intros HPR. induction l as [|x l IH]; [reflexivity|].
  destruct (decide (P x)) as [Hp|Hp].
  - rewrite !filter_cons_True by auto. simpl. lia.
  - rewrite (filter_cons_False P) by exact Hp.
    destruct (decide (R x)) as [Hr|Hr].
    + rewrite filter_cons_True by exact Hr. simpl. lia.
    + now rewrite filter_cons_False.
Qed.

Lemma occurrences_filter (f : string) (P : string -> Prop)
    `{forall x, Decision (P x)} (l : list string) :
  occurrences f (filter P l) =
  if decide (P f) then occurrences f l else 0.
Proof.
  unfold occurrences. induction l as [|x l IH].
  - now destruct (decide (P f)).
  - destruct (decide (P x)) as [Hp|Hp].
    + rewrite (filter_cons_True P) by exact Hp.
      destruct (decide (x = f)) as [->|Hne].
      * rewrite !filter_cons_True by reflexivity. simpl. rewrite IH.
        now destruct (decide (P f)).
      * now rewrite !filter_cons_False by exact Hne.
    + rewrite (filter_cons_False P) by exact Hp. rewrite IH.
      destruct (decide (P f)) as [Hf|Hf]; [|reflexivity].
      rewrite filter_cons_False; [reflexivity|]. intros ->. contradiction.
Qed.

Lemma room_active_iff (q : room_json) :
  room_active q = true <->
  query_room_type q <> "" /\ query_room_type q <> "any".
Proof.
  unfold room_active.
  rewrite andb_true_iff, negb_true_iff, StrFacts.truthy_nonempty.
  now rewrite String.eqb_neq.
Qed.

Lemma capacity_active_iff (q : room_json) :
  capacity_active q = true <-> (0 < query_max_capacity q)%Z.
Proof. apply Z.ltb_lt. Qed.

Lemma view_active_iff (q : room_json) :
  view_active q = true <->
  query_view_type q <> "" /\ query_view_type q <> "any"
  /\ query_view_type q <> "standard".
Proof.
  unfold view_active.
  rewrite andb_true_iff, negb_true_iff, orb_false_iff.
  now rewrite StrFacts.truthy_nonempty, !String.eqb_neq.
Qed.

Lemma matched_elem (q c : room_json) (f : string) :
  f ∈ matched q c <->
  f ∈ query_features q /\
  exists vf : string,
    vf ∈ get (features c) [] /\ Str.Substring f (Str.lower vf).
Proof.
  unfold matched. rewrite list_elem_of_filter, inner_loop_exists.
  unfold vision_features. split.
  - intros [(v & Hv & Hs) Hf]. split; [exact Hf|].
    apply list_elem_of_fmap in Hv as (vf & -> & Hvf). now exists vf.
  - intros [Hf (vf & Hvf & Hs)]. split; [|exact Hf].
    exists (Str.lower vf). split; [|exact Hs].
    apply list_elem_of_fmap. now exists vf.
Qed.

(** C1.  [keyword_search] scores the active fields additively: the room
    type and the view type match by case-insensitive substring, the
    capacity by the candidate's being at least the query's, a query
    feature by being a substring of some candidate feature; a match adds
    one point to [score], an active scalar field adds one point to
    [max_score] and the feature list adds its length. *)
Theorem keyword_score_additive (q c : room_json) :
  let t := score_candidate q c in
  (score t ==
     point (room_active q && room_match q c)
     + point (capacity_active q && capacity_match q c)
     + point (view_active q && view_match q c)
     + len_Q (matched q c))%Q
  /\ (max_score t ==
        point (room_active q) + point (capacity_active q)
        + point (view_active q) + len_Q (get (features q) []))%Q
  /\ (room_match q c = true <->
      Str.Substring (Str.lower (get (room_type q) ""))
        (Str.lower (get (room_type c) "")))
  /\ (capacity_match q c = true <->
      (get (max_capacity q) 0 <= get (max_capacity c) 0)%Z)
  /\ (view_match q c = true <->
      Str.Substring (Str.lower (get (view_type q) ""))
        (Str.lower (get (view_type c) "")))
  /\ (forall f : string,
        f ∈ matched q c <->
        f ∈ map Str.lower (get (features q) []) /\
        exists vf : string,
          vf ∈ get (features c) [] /\ Str.Substring f (Str.lower vf))
  /\ (forall (f vf : string) (rest : list string),
        Str.contains f vf = true -> inner_loop f (vf :: rest) = true)
  /\ (room_active q = true <->
      Str.lower (get (room_type q) "") <> ""
      /\ Str.lower (get (room_type q) "") <> "any")
  /\ (capacity_active q = true <-> (0 < get (max_capacity q) 0)%Z)
  /\ (view_active q = true <->
      Str.lower (get (view_type q) "") <> ""
      /\ Str.lower (get (view_type q) "") <> "any"
      /\ Str.lower (get (view_type q) "") <> "standard").
Proof.
  cbn zeta. split; [apply score_closed_form|].
  split.
  { rewrite max_score_closed_form. unfold query_features, len_Q.
    now rewrite length_map. }
  split; [apply StrFacts.contains_substring|].
  split; [apply Z.leb_le|].
  split; [apply StrFacts.contains_substring|].
  split; [apply matched_elem|].
  split; [intros f vf rest H; simpl; now rewrite H|].
  split; [apply room_active_iff|].
  split; [apply capacity_active_iff | apply view_active_iff].
Qed.

Lemma unconstrained_max_score (q c : room_json) :
  unconstrained q -> (max_score (score_candidate q c) == 0)%Q.
Proof.
  intros (Hr & Hc & Hv & Hf). rewrite max_score_closed_form.
  assert (room_active q = false) as ->.
  { apply not_true_is_false. rewrite room_active_iff. tauto. }
  assert (capacity_active q = false) as ->.
  { apply not_true_is_false. rewrite capacity_active_iff. lia. }
  assert (view_active q = false) as ->.
  { apply not_true_is_false. rewrite view_active_iff. tauto. }
  unfold query_features. rewrite Hf. reflexivity.
Qed.

(** C5.  The division is guarded: [normalized_score] is
    [score / max_score] when [max_score > 0] and [0.0] when
    [max_score = 0]; so a query with no active field gives every
    candidate the score [0.0], and with a positive [min_score]
    [keyword_search] returns nothing. *)
Theorem normalization_guarded (q c : room_json) :
  let t := score_candidate q c in
  ((0 < max_score t)%Q ->
   normalized_score q c = (score t / max_score t)%Q)
  /\ ((max_score t == 0)%Q -> normalized_score q c = 0%Q)
  /\ (unconstrained q ->
      normalized_score q c = 0%Q /\
      forall (vision_results : list (string * room_json)) (min_score : Q),
        (0 < min_score)%Q -> keyword_search q vision_results min_score = []).
Proof.
  cbn zeta. split; [apply normalize_div|].
  split; [intros H; apply normalize_zero; rewrite H; apply Qle_refl|].
  intros Hu. split.
  - apply normalize_zero. rewrite (unconstrained_max_score q c Hu).
    apply Qle_refl.
  - intros vr m Hm. unfold keyword_search.
    rewrite keyword_loop_filter. simpl.
    assert (kept q m vr = []) as ->; [|reflexivity].
    unfold kept. induction vr as [|[u d] vr IH]; [reflexivity|].
    rewrite filter_cons_False; [exact IH|].
    unfold passes, normalized_score. simpl.
    rewrite normalize_zero.
    + intros H. apply Qle_bool_iff in H. lra.
    + rewrite (unconstrained_max_score q d Hu). apply Qle_refl.
Qed.

(** C6.  The normalized score of every candidate lies between 0 and 1:
    the accumulated [score] never exceeds [max_score]. *)
Theorem normalized_score_bounds (q c : room_json) :
  (0 <= normalized_score q c <= 1)%Q
  /\ (0 <= score (score_candidate q c) <= max_score (score_candidate q c))%Q.
Proof.
  pose proof (score_nonneg q c) as H0.
  pose proof (score_le_max_score q c) as H1.
  split; [|now split].
  unfold normalized_score, normalize.
  destruct (Qlt_le_dec 0 (max_score (score_candidate q c))) as [Hm|Hm].
  - split.
    + apply Qle_shift_div_l; [exact Hm | lra].
    + apply Qle_shift_div_r; [exact Hm | lra].
  - lra.
Qed.

Lemma matched_extend (q c : room_json) (extra : list string) :
  length (matched q c) <= length (matched q (extend_features c extra)).
Proof.
  unfold matched. apply filter_length_mono. intros f Hf.
  unfold vision_features, extend_features. simpl.
  rewrite map_app. now apply inner_loop_app.
Qed.

(** C7.  Appending features to a candidate, which is how a query feature
    that matched nothing comes to match, never lowers the candidate's
    normalized score. *)
Theorem feature_monotone (q c : room_json) (extra : list string) :
  (normalized_score q c <= normalized_score q (extend_features c extra))%Q.
Proof.
  pose proof (max_score_query_only q c (extend_features c extra)) as Hm.
  assert (Hs : (score (score_candidate q c)
                <= score (score_candidate q (extend_features c extra)))%Q).
  { rewrite !score_closed_form.
    pose proof (len_Q_le _ _ (matched_extend q c extra)) as Hl.
    change (room_match q (extend_features c extra)) with (room_match q c).
    change (capacity_match q (extend_features c extra))
      with (capacity_match q c).
    change (view_match q (extend_features c extra)) with (view_match q c).
    lra. }
  unfold normalized_score, normalize.
  destruct (Qlt_le_dec 0 (max_score (score_candidate q c))) as [H1|H1],
    (Qlt_le_dec 0 (max_score (score_candidate q (extend_features c extra))))
    as [H2|H2]; try lra.
  rewrite <- Hm. unfold Qdiv. apply Qmult_le_compat_r; [exact Hs|].
  apply Qinv_le_0_compat. lra.
Qed.

(** C10.  The query's feature list is a sequence: every position adds a
    point to [max_score], every position whose feature matches adds a
    point to [score] and one entry to the recorded matches, so a feature
    listed [k] times is counted and recorded [k] times. *)
Theorem features_are_a_sequence (q c : room_json) (t : tally) :
  let t' := features_block q c t in
  (max_score t' == max_score t + len_Q (get (features q) []))%Q
  /\ (score t' == score t + len_Q (matched q c))%Q
  /\ md_features (details t') =
     (if features_active q
      then Some (FeaturesDetail (query_features q) (vision_features c)
                   (matched q c))
      else md_features (details t))
  /\ forall f : string,
       occurrences f (matched q c) =
       if inner_loop f (vision_features c)
       then occurrences f (map Str.lower (get (features q) []))
       else 0.
Proof.
  cbn zeta. unfold features_block.
  assert (Hlen : len_Q (get (features q) []) = len_Q (query_features q)).
  { unfold len_Q, query_features. now rewrite length_map. }
  rewrite Hlen. split; [|split; [|split]].
  - destruct (features_active q) eqn:Ef.
    + now destruct (outer_loop _ _ _ _).
    + unfold features_active in Ef.
      destruct (query_features q); [|discriminate].
      rewrite len_Q_nil. ring.
  - destruct (features_active q) eqn:Ef.
    + pose proof (outer_loop_filter (query_features q) (vision_features c)
                    [] (score t)) as [_ H2].
      destruct (outer_loop _ _ _ _). exact H2.
    + unfold matched, features_active in *.
      destruct (query_features q); [|discriminate].
      rewrite filter_nil, len_Q_nil. ring.
  - destruct (features_active q) eqn:Ef; [|reflexivity].
    pose proof (outer_loop_filter (query_features q) (vision_features c)
                  [] (score t)) as [H1 _].
    destruct (outer_loop _ _ _ _). simpl in *. now rewrite H1.
  - intros f. unfold matched. rewrite occurrences_filter.
    fold (query_features q).
    destruct (inner_loop f (vision_features c)) eqn:E.
    + now rewrite decide_True.
    + now rewrite decide_False.
Qed.

(** * Facts about the cache and the semantic channel *)

Section ChannelFacts.
Variable Vec : Type.
Variable provider : list string -> string -> Vec.
Variable cosine_similarity : Vec -> Vec -> Q.
Variable set_iter : gset string -> list string.
Hypothesis set_iter_perm : forall X : gset string, set_iter X ≡ₚ elements X.


Lemma extends_refl (w : world Vec) : extends w w.
Proof. now intros t v H. Qed.

Lemma extends_trans (w1 w2 w3 : world Vec) :
  extends w1 w2 -> extends w2 w3 -> extends w1 w3.
Proof. intros H1 H2 t v H. now apply H2, H1. Qed.

Lemma get_embedding_hit (text : string) (w : world Vec) (v : Vec) :
  embedding_cache (self w) !! text = Some v ->
  get_embedding provider text w = (v, w).
Proof. intros H. unfold get_embedding. now rewrite H. Qed.

Lemma get_embedding_stores (text : string) (w : world Vec) :
  embedding_cache (self (get_embedding provider text w).2) !! text
  = Some (get_embedding provider text w).1.
Proof.
  unfold get_embedding.
  destruct (embedding_cache (self w) !! text) eqn:E; simpl.
  - exact E.
  - apply lookup_insert_eq.
Qed.

Lemma get_embedding_extends (text : string) (w : world Vec) :
  extends w (get_embedding provider text w).2.
Proof.
  unfold get_embedding.
  destruct (embedding_cache (self w) !! text) eqn:E; simpl.
  - apply extends_refl.
  - intros t v H. simpl. rewrite lookup_insert_ne; [exact H|].
    intros ->. congruence.
Qed.

Lemma get_embedding_cache_ok (text : string) (w : world Vec) :
  cache_ok w -> cache_ok (get_embedding provider text w).2.
Proof.
  intros [Hnd Hin]. unfold get_embedding.
  destruct (embedding_cache (self w) !! text) eqn:E; simpl.
  - now split.
  - split; simpl.
    + apply NoDup_app. split; [exact Hnd|]. split.
      * intros t Ht Ht'. apply list_elem_of_singleton in Ht'. subst t.
        destruct (Hin _ Ht) as [v Hv]. congruence.
      * apply NoDup_singleton.
    + intros t Ht. apply elem_of_app in Ht as [Ht|Ht].
      * destruct (Hin _ Ht) as [v Hv].
        destruct (decide (text = t)) as [->|Hne]; [congruence|].
        rewrite lookup_insert_ne by exact Hne. now exists v.
      * apply list_elem_of_singleton in Ht. subst t.
        rewrite lookup_insert_eq. now eexists.
Qed.

Lemma get_embedding_weights (text : string) (w : world Vec) :
  same_weights w (get_embedding provider text w).2.
Proof.
  unfold get_embedding, same_weights.
  now destruct (embedding_cache (self w) !! text).
Qed.

Lemma semantic_loop_weights (query_embedding : Vec)
    (items : list (string * room_json)) (results : list (string * Q))
    (w : world Vec) :
  same_weights w
    (semantic_loop provider cosine_similarity query_embedding items results
       w).2.
Proof.
  revert results w. induction items as [|[url c] items IH]; intros results w.
  - now split.
  - cbn [semantic_loop].
    destruct (Str.truthy (get (description c) "")); [|apply IH].
    unfold bind.
    pose proof (get_embedding_weights (get (description c) "") w) as [H1 H2].
    destruct (get_embedding provider (get (description c) "") w) as [ve w1].
    cbn [snd] in H1, H2.
    destruct (IH (results ++ [(url, cosine_similarity query_embedding ve)])
                w1) as [H3 H4].
    split; congruence.
Qed.

Lemma semantic_search_weights (q : room_json)
    (vision_results : list (string * room_json)) (w : world Vec) :
  same_weights w
    (semantic_search provider cosine_similarity q vision_results w).2.
Proof.
  unfold semantic_search.
  destruct (Str.truthy (query_description q)); [|now split].
  unfold bind, ret.
  pose proof (get_embedding_weights (query_description q) w) as [H1 H2].
  destruct (get_embedding provider (query_description q) w) as [qe w1].
  pose proof (semantic_loop_weights qe vision_results [] w1) as [H3 H4].
  destruct (semantic_loop provider cosine_similarity qe vision_results []
              w1) as [res w2].
  cbn [snd] in *. split; congruence.
Qed.

(** What one run of the loop of [semantic_search] leaves behind. *)
Lemma semantic_loop_run (query_embedding : Vec)
    (items : list (string * room_json)) (results : list (string * Q))
    (w : world Vec) :
  let out :=
    semantic_loop provider cosine_similarity query_embedding items results
      w in
  extends w out.2 /\
  (cache_ok w -> cache_ok out.2) /\
  exists fresh : list (string * Q),
    out.1 = results ++ fresh /\
    fresh.*1 = (described items).*1 /\
    forall (url : string) (s : Q), (url, s) ∈ fresh ->
      exists (c : room_json) (vision_embedding : Vec),
        (url, c) ∈ described items /\
        embedding_cache (self out.2) !! get (description c) ""
          = Some vision_embedding /\
        s = cosine_similarity query_embedding vision_embedding.
Proof.
  cbn zeta. revert results w.
  induction items as [|[url c] items IH]; intros results w.
  - simpl. split; [apply extends_refl|]. split; [auto|].
    exists []. rewrite app_nil_r.
    split; [reflexivity|]. split; [reflexivity|].
    intros u s H. inversion H.
  - cbn [semantic_loop]. unfold described.
    destruct (Str.truthy (get (description c) "")) eqn:E.
    + rewrite filter_cons_True by exact E. fold (described items).
      unfold bind.
      pose proof (get_embedding_stores (get (description c) "") w) as Hst.
      pose proof (get_embedding_extends (get (description c) "") w) as Hex.
      pose proof (get_embedding_cache_ok (get (description c) "") w) as Hok.
      destruct (get_embedding provider (get (description c) "") w) as [ve w1].
      cbn [fst snd] in Hst, Hex, Hok.
      specialize
        (IH (results ++ [(url, cosine_similarity query_embedding ve)]) w1).
      destruct IH as (H1 & H2 & fresh & Hf & Hu & Hs).
      split; [eapply extends_trans; eauto|]. split; [auto|].
      exists ((url, cosine_similarity query_embedding ve) :: fresh).
      split; [rewrite Hf, <- app_assoc; reflexivity|].
      split; [rewrite !fmap_cons, Hu; reflexivity|].
      intros u s Hin. apply elem_of_cons in Hin as [Heq|Hin].
      * injection Heq as -> ->. exists c, ve.
        split; [left|]. split; [now apply H1 | reflexivity].
      * destruct (Hs u s Hin) as (c' & ve' & Hc & Hv & Hsim).
        exists c', ve'. split; [now right | now split].
    + rewrite filter_cons_False; [fold (described items); apply IH|].
      change (Str.truthy (get (description c) "") <> true). congruence.
Qed.

(** With no query description nothing is returned and nothing is
    requested. *)
Lemma semantic_search_inactive (q : room_json)
    (vision_results : list (string * room_json)) (w : world Vec) :
  query_description q = "" ->
  semantic_search provider cosine_similarity q vision_results w = ([], w).
Proof. intros H. unfold semantic_search. now rewrite H. Qed.

Lemma semantic_search_run (q : room_json)
    (vision_results : list (string * room_json)) (w : world Vec) :
  query_description q <> "" ->
  let out := semantic_search provider cosine_similarity q vision_results w in
  extends w out.2 /\
  out.1.*1 ≡ₚ (described vision_results).*1 /\
  forall (url : string) (s : Q), (url, s) ∈ out.1 ->
    exists c : room_json,
      (url, c) ∈ described vision_results
      /\ cosine_of cosine_similarity out.2 q c s.
Proof.
  intros Hq. cbn zeta. unfold semantic_search.
  apply StrFacts.truthy_nonempty in Hq. rewrite Hq. unfold bind, ret.
  pose proof (get_embedding_stores (query_description q) w) as Hst.
  pose proof (get_embedding_extends (query_description q) w) as Hex.
  destruct (get_embedding provider (query_description q) w) as [qe w1].
  cbn [fst snd] in Hst, Hex.
  pose proof (semantic_loop_run qe vision_results [] w1) as Hrun.
  cbn zeta in Hrun.
  destruct (semantic_loop provider cosine_similarity qe vision_results []
              w1) as [res w2].
  cbn [fst snd] in *. destruct Hrun as (H1 & _ & fresh & Hf & Hu & Hs).
  simpl in Hf. subst res.
  split; [eapply extends_trans; eauto|]. split.
  - now rewrite sorted_desc_perm, Hu.
  - intros url s Hin. apply sorted_desc_elem in Hin.
    destruct (Hs url s Hin) as (c & ve & Hc & Hv & Hsim).
    exists c. split; [exact Hc|]. exists qe, ve.
    split; [now apply H1 | now split].
Qed.

Lemma semantic_search_cache_ok (q : room_json)
    (vision_results : list (string * room_json)) (w : world Vec) :
  cache_ok w ->
  cache_ok (semantic_search provider cosine_similarity q vision_results w).2.
Proof.
  intros Hok. unfold semantic_search.
  destruct (Str.truthy (query_description q)); [|exact Hok].
  unfold bind, ret.
  pose proof (get_embedding_cache_ok (query_description q) w Hok) as Hok1.
  destruct (get_embedding provider (query_description q) w) as [qe w1].
  pose proof (semantic_loop_run qe vision_results [] w1) as Hrun.
  cbn zeta in Hrun.
  destruct (semantic_loop provider cosine_similarity qe vision_results []
              w1) as [res w2].
  cbn [fst snd] in *. now apply Hrun.
Qed.


(** * The fusion of the two channels *)

Lemma hybrid_ranked_run (q : room_json)
    (vision_results : list (string * room_json)) (kmin smin : Q)
    (w : world Vec) :
  let kr := keyword_search q vision_results kmin in
  let out := semantic_search provider cosine_similarity q vision_results w in
  let ks := keyword_scores kr in
  let ss := semantic_scores out.1 smin in
  hybrid_ranked provider cosine_similarity set_iter q vision_results kmin
    smin w =
  (sorted_desc hit_score
     (map (combine (keyword_weight (self w)) (semantic_weight (self w))
             ks (keyword_details kr) ss)
        (set_iter (dom ks ∪ dom ss))),
   out.2).
Proof.
  cbn zeta. unfold hybrid_ranked.
  pose proof (semantic_search_weights q vision_results w) as [H1 H2].
  destruct (semantic_search provider cosine_similarity q vision_results w)
    as [sr w'].
  cbn [fst snd] in *. now rewrite H1, H2.
Qed.

Lemma hybrid_search_run (q : room_json)
    (vision_results : list (string * room_json)) (kmin smin : Q)
    (max_results : Z) (w : world Vec) :
  hybrid_search provider cosine_similarity set_iter q vision_results kmin
    smin max_results w =
  (slice_to max_results
     (hybrid_ranked provider cosine_similarity set_iter q vision_results
        kmin smin w).1,
   (semantic_search provider cosine_similarity q vision_results w).2).
Proof.
  unfold hybrid_search, bind, ret.
  pose proof (hybrid_ranked_run q vision_results kmin smin w) as H.
  cbn zeta in H. rewrite H. reflexivity.
Qed.

Lemma semantic_search_urls_NoDup (q : room_json)
    (vision_results : list (string * room_json)) (w : world Vec) :
  NoDup vision_results.*1 ->
  NoDup (semantic_search provider cosine_similarity q vision_results w).1.*1.
Proof.
  intros Hnd. destruct (decide (query_description q = "")) as [He|Hne].
  - rewrite semantic_search_inactive by exact He. constructor.
  - destruct (semantic_search_run q vision_results w Hne) as (_ & Hp & _).
    rewrite Hp. now apply described_NoDup.
Qed.

(** C2.  Before truncation the result of [hybrid_search] holds exactly
    the identifiers that passed the keyword threshold or the semantic
    threshold, each once, and the combined score of each is
    [keyword_weight * keyword_score + semantic_weight * semantic_score]
    with the weights as given to the constructor (0.7 and 0.3 when
    omitted), not renormalized, and [0.0] for a score its channel's
    mapping lacks. *)
Theorem hybrid_union (q : room_json)
    (vision_results : list (string * room_json)) (kmin smin : Q)
    (w : world Vec) :
  NoDup vision_results.*1 ->
  let kr := keyword_search q vision_results kmin in
  let sr :=
    (semantic_search provider cosine_similarity q vision_results w).1 in
  let ranked :=
    (hybrid_ranked provider cosine_similarity set_iter q vision_results kmin
       smin w).1 in
  NoDup (map hit_url ranked)
  /\ (forall url : string,
        url ∈ map hit_url ranked <->
        (exists c : room_json,
           (url, c) ∈ vision_results
           /\ (kmin <= normalized_score q c)%Q)
        \/ (exists s : Q, (url, s) ∈ sr /\ (smin <= s)%Q))
  /\ (forall h : keyword_hit,
        h ∈ ranked ->
        hit_score h =
        (keyword_weight (self w)
           * get (keyword_scores kr !! hit_url h) 0
         + semantic_weight (self w)
           * get (semantic_scores sr smin !! hit_url h) 0)%Q)
  /\ (forall (url : string) (s : Q),
        keyword_scores kr !! url = Some s <->
        exists c : room_json,
          (url, c) ∈ vision_results /\ s = normalized_score q c
          /\ (kmin <= s)%Q)
  /\ (forall (url : string) (s : Q),
        semantic_scores sr smin !! url = Some s <->
        (url, s) ∈ sr /\ (smin <= s)%Q)
  /\ (forall kw sw : Q,
        keyword_weight (self (init Vec None None)) = 7 # 10
        /\ semantic_weight (self (init Vec None None)) = 3 # 10
        /\ keyword_weight (self (init Vec (Some kw) (Some sw))) = kw
        /\ semantic_weight (self (init Vec (Some kw) (Some sw))) = sw).
Proof.
  intros Hnd. cbn zeta.
  pose proof (hybrid_ranked_run q vision_results kmin smin w) as Hr.
  cbn zeta in Hr. rewrite Hr. cbn [fst]. clear Hr.
  set (kr := keyword_search q vision_results kmin).
  set (sr :=
         (semantic_search provider cosine_similarity q vision_results w).1).
  set (ks := keyword_scores kr). set (ss := semantic_scores sr smin).
  set (f := combine _ _ ks (keyword_details kr) ss).
  assert (Hurls : map hit_url (sorted_desc hit_score
                    (map f (set_iter (dom ks ∪ dom ss))))
                  ≡ₚ elements (dom ks ∪ dom ss)).
  { rewrite sorted_desc_perm, map_map. rewrite <- set_iter_perm.
    erewrite map_ext; [now rewrite map_id | reflexivity]. }
  split; [rewrite Hurls; apply NoDup_elements|].
  split.
  { intros url. rewrite Hurls, elem_of_elements, elem_of_union.
    unfold ks, ss. rewrite keyword_scores_dom, semantic_scores_dom.
    unfold kr. now rewrite keyword_search_url. }
  split.
  { intros h Hh. apply sorted_desc_elem in Hh.
    apply list_elem_of_fmap in Hh as (url & -> & _). reflexivity. }
  split.
  { intros url s. unfold ks, kr.
    rewrite keyword_scores_lookup
      by now apply keyword_search_urls_NoDup.
    split.
    - intros [md Hin]. apply keyword_search_elem in Hin.
      destruct Hin as (c & Hc & Hle & Heq). simpl in Hc.
      injection Heq as Hs _. exists c. subst s. now repeat split.
    - intros (c & Hc & -> & Hle).
      exists (details (score_candidate q c)).
      apply keyword_search_elem. exists c. now repeat split. }
  split; [|now repeat split].
  intros url s. unfold ss, sr. apply semantic_scores_lookup.
  now apply semantic_search_urls_NoDup.
Qed.

(** C3 (as amended).  The list [hybrid_search] returns is in descending
    order of combined score and is a prefix of the full sorted list, so
    cutting it never changes what was scored; when [max_results] is not
    negative it has at most [max_results] entries. *)
Theorem hybrid_truncation (q : room_json)
    (vision_results : list (string * room_json)) (kmin smin : Q)
    (max_results : Z) (w : world Vec) :
  let result :=
    (hybrid_search provider cosine_similarity set_iter q vision_results kmin
       smin max_results w).1 in
  let ranked :=
    (hybrid_ranked provider cosine_similarity set_iter q vision_results kmin
       smin w).1 in
  descending hit_score ranked
  /\ result `prefix_of` ranked
  /\ descending hit_score result
  /\ ((0 <= max_results)%Z ->
      (Z.of_nat (length result) <= max_results)%Z).
Proof.
  cbn zeta.
  rewrite hybrid_search_run. cbn [fst].
  set (ranked :=
         (hybrid_ranked provider cosine_similarity set_iter q vision_results
            kmin smin w).1).
  assert (Hd : descending hit_score ranked).
  { unfold ranked.
    pose proof (hybrid_ranked_run q vision_results kmin smin w) as Hr.
    cbn zeta in Hr. rewrite Hr. apply sorted_desc_descending. }
  split; [exact Hd|]. split; [apply slice_to_prefix|].
  split; [|apply slice_to_length].
  eapply descending_prefix; [apply slice_to_prefix | exact Hd].
Qed.

(** C4.  Both thresholds are hard filters: a candidate is in the list
    [keyword_search] returns iff its normalized score is at least
    [min_score], and the semantic mapping of [hybrid_search] holds no
    candidate whose cosine similarity is below [semantic_min_score]. *)
Theorem thresholds_are_hard_filters (q : room_json)
    (vision_results : list (string * room_json)) (min_score smin : Q)
    (w : world Vec) :
  NoDup vision_results.*1 ->
  let out := semantic_search provider cosine_similarity q vision_results w in
  (forall (url : string) (c : room_json),
     (url, c) ∈ vision_results ->
     (url ∈ map hit_url (keyword_search q vision_results min_score) <->
      (min_score <= normalized_score q c)%Q))
  /\ (forall h : keyword_hit,
        h ∈ keyword_search q vision_results min_score ->
        (min_score <= hit_score h)%Q)
  /\ (forall (url : string) (s : Q),
        semantic_scores out.1 smin !! url = Some s ->
        (smin <= s)%Q /\
        exists c : room_json,
          (url, c) ∈ vision_results
          /\ cosine_of cosine_similarity out.2 q c s).
Proof.
  intros Hnd. cbn zeta. split; [|split].
  - intros url c Hc. rewrite keyword_search_url. split.
    + intros (c' & Hc' & Hle).
      now rewrite (items_functional vision_results url c c').
    + intros Hle. now exists c.
  - intros h Hh. apply keyword_search_elem in Hh.
    destruct Hh as (c & _ & Hle & ->). exact Hle.
  - intros url s Hl. apply semantic_scores_lookup_elem in Hl as [Hin Hle].
    split; [exact Hle|].
    destruct (decide (query_description q = "")) as [He|Hne].
    + rewrite semantic_search_inactive in Hin by exact He.
      inversion Hin.
    + destruct (semantic_search_run q
                  vision_results w Hne) as (_ & _ & Hs).
      destruct (Hs url s Hin) as (c & Hc & Hcos).
      apply described_elem in Hc as [Hc _]. now exists c.
Qed.

(** C8.  With an empty query description [semantic_search] returns
    the empty list whatever the corpus; otherwise it leaves out every
    candidate whose description is empty and gives every other one the
    cosine similarity of the two description embeddings. *)
Theorem semantic_channel (q : room_json)
    (vision_results : list (string * room_json)) (w : world Vec) :
  let out := semantic_search provider cosine_similarity q vision_results w in
  (query_description q = "" -> out = ([], w))
  /\ (query_description q <> "" ->
      length out.1 = length (described vision_results)
      /\ (forall url : string,
            url ∈ out.1.*1 <->
            exists c : room_json,
              (url, c) ∈ vision_results /\ get (description c) "" <> "")
      /\ (forall (url : string) (s : Q),
            (url, s) ∈ out.1 ->
            exists c : room_json,
              (url, c) ∈ vision_results /\ get (description c) "" <> ""
              /\ cosine_of cosine_similarity out.2 q c s)
      /\ (NoDup vision_results.*1 ->
          forall (url : string) (c : room_json),
            (url, c) ∈ vision_results -> get (description c) "" = "" ->
            url ∉ out.1.*1)).
Proof.
  cbn zeta. split; [apply semantic_search_inactive|].
  intros Hne.
  destruct (semantic_search_run q
              vision_results w Hne) as (_ & Hp & Hs).
  set (out := semantic_search provider cosine_similarity q vision_results w)
    in *.
  assert (Hurl : forall url : string,
            url ∈ out.1.*1 <->
            exists c : room_json,
              (url, c) ∈ vision_results /\ get (description c) "" <> "").
  { intros url. rewrite Hp, list_elem_of_fmap. split.
    - intros ([u c] & -> & Hin). apply described_elem in Hin.
      now exists c.
    - intros (c & Hin). exists (url, c). split; [reflexivity|].
      now apply described_elem. }
  split.
  { rewrite <- (length_fmap fst), Hp. apply length_fmap. }
  split; [exact Hurl|]. split.
  - intros url s Hin. destruct (Hs url s Hin) as (c & Hc & Hcos).
    apply described_elem in Hc as [Hc Hd]. now exists c.
  - intros Hnd url c Hc He Hin. apply Hurl in Hin as (c' & Hc' & Hd).
    rewrite (items_functional vision_results url c c') in He by auto.
    contradiction.
Qed.

Lemma perform_cache_ok (c : call) (w : world Vec) :
  cache_ok w -> cache_ok (perform provider cosine_similarity set_iter c w).
Proof.
  intros Hok. destruct c as [text|q vr|q vr kmin smin n]; simpl.
  - now apply get_embedding_cache_ok.
  - now apply semantic_search_cache_ok.
  - rewrite hybrid_search_run. now apply semantic_search_cache_ok.
Qed.

Lemma session_cache_ok (calls : list call) (w : world Vec) :
  cache_ok w -> cache_ok (session provider cosine_similarity set_iter calls w).
Proof.
  revert w. induction calls as [|c calls IH]; intros w Hok; [exact Hok|].
  simpl. apply IH. now apply perform_cache_ok.
Qed.

(** C9.  [get_embedding] on a text that is in the cache returns the
    cached vector and asks the provider nothing; a second call with the
    same text returns what the first returned and leaves the object as
    it was; over the lifetime of an instance no text is sent to the
    provider twice. *)
Theorem embedding_cache_idempotent :
  (forall (text : string) (w : world Vec) (v : Vec),
     embedding_cache (self w) !! text = Some v ->
     get_embedding provider text w = (v, w))
  /\ (forall (text : string) (w : world Vec),
        let first := get_embedding provider text w in
        get_embedding provider text first.2 = (first.1, first.2))
  /\ (forall (kw sw : option Q) (calls : list call),
        NoDup
          (requests
             (session provider cosine_similarity set_iter calls
                (init Vec kw sw)))).
Proof.
  split; [apply get_embedding_hit|]. split.
  - intros text w. cbn zeta. apply get_embedding_hit.
    apply get_embedding_stores.
  - intros kw sw calls.
    apply (session_cache_ok calls (init Vec kw sw)).
    split; [constructor | intros t Ht; inversion Ht].
Qed.

End ChannelFacts.


(** * The statements at the sample corpus *)

Example sample_scores :
  (normalized_score Sample.query Sample.image1 == 1)%Q
  /\ (normalized_score Sample.query Sample.image3 == 3 # 5)%Q
  /\ (normalized_score Sample.query Sample.image6 == 2 # 5)%Q.
Proof. now vm_compute. Qed.

Example sample_duplicates :
  matched Sample.twice Sample.image6 = ["wifi"; "wifi"]
  /\ (max_score (score_candidate Sample.twice Sample.image6) == 3)%Q
  /\ (score (score_candidate Sample.twice Sample.image6) == 2)%Q.
Proof. now vm_compute. Qed.

Lemma sample_keys_distinct : NoDup Sample.vision_results.*1.
Proof.
  unfold Sample.vision_results. rewrite !fmap_cons, fmap_nil. simpl.
  repeat (apply NoDup_cons; split;
          [intros H; repeat (apply elem_of_cons in H as [H|H];
                             [discriminate|]); inversion H|]).
  apply NoDup_nil_2.
Defined.

Lemma elements_perm (X : gset string) : elements X ≡ₚ elements X.
Proof. reflexivity. Defined.

Lemma hybrid_union_witness :
  NoDup Sample.vision_results.*1
  /\ NoDup (map hit_url
              (hybrid_ranked Sample.provider Sample.cosine_similarity elements
                 Sample.query Sample.vision_results (3 # 10) (1 # 2)
                 Sample.fresh).1).
Proof.
  split; [exact sample_keys_distinct|].
  pose proof (hybrid_union nat Sample.provider Sample.cosine_similarity
                elements elements_perm Sample.query Sample.vision_results
                (3 # 10) (1 # 2) Sample.fresh sample_keys_distinct) as H.
  cbn zeta in H. exact (proj1 H).
Defined.

(** With [max_results = -1] the slice drops the last of the three ranked
    candidates: two entries come back, which is more than [-1]. *)
Lemma hybrid_truncation_negative_limit :
  let result :=
    (hybrid_search Sample.provider Sample.cosine_similarity elements
       Sample.query Sample.vision_results (3 # 10) (1 # 2) (-1)
       Sample.fresh).1 in
  length result = 2 /\ ~ (Z.of_nat (length result) <= -1)%Z.
Proof. cbn zeta. split; [now vm_compute | lia]. Qed.

Lemma hybrid_truncation_witness :
  (0 <= 1)%Z
  /\ (Z.of_nat
        (length
           (hybrid_search Sample.provider Sample.cosine_similarity elements
              Sample.query Sample.vision_results (3 # 10) (1 # 2) 1
              Sample.fresh).1) <= 1)%Z.
Proof.
  assert (H0 : (0 <= 1)%Z) by discriminate.
  split; [exact H0|].
  pose proof (hybrid_truncation nat Sample.provider Sample.cosine_similarity
                elements Sample.query Sample.vision_results (3 # 10) (1 # 2)
                1 Sample.fresh) as H.
  cbn zeta in H. exact (proj2 (proj2 (proj2 H)) H0).
Defined.

Lemma thresholds_are_hard_filters_witness :
  NoDup Sample.vision_results.*1
  /\ forall h : keyword_hit,
       h ∈ keyword_search Sample.query Sample.vision_results (1 # 2) ->
       (1 # 2 <= hit_score h)%Q.
Proof.
  split; [exact sample_keys_distinct|].
  pose proof (thresholds_are_hard_filters nat Sample.provider
                Sample.cosine_similarity Sample.query Sample.vision_results
                (1 # 2) (1 # 2) Sample.fresh sample_keys_distinct) as H.
  cbn zeta in H. exact (proj1 (proj2 H)).
Defined.

Lemma normalization_guarded_witness :
  unconstrained Sample.open_query
  /\ (0 < 3 # 10)%Q
  /\ normalized_score Sample.open_query Sample.image1 = 0%Q
  /\ keyword_search Sample.open_query Sample.vision_results (3 # 10) = [].
Proof.
  assert (Hu : unconstrained Sample.open_query).
  { repeat split; [now right | now right; right]. }
  assert (Hm : (0 < 3 # 10)%Q) by reflexivity.
  split; [exact Hu|]. split; [exact Hm|].
  pose proof (normalization_guarded Sample.open_query Sample.image1) as H.
  cbn zeta in H. destruct H as (_ & _ & H). destruct (H Hu) as [H1 H2].
  split; [exact H1 | exact (H2 Sample.vision_results (3 # 10) Hm)].
Defined.

Lemma semantic_channel_witness :
  query_description Sample.open_query = ""
  /\ query_description Sample.query <> ""
  /\ semantic_search Sample.provider Sample.cosine_similarity
       Sample.open_query Sample.vision_results Sample.fresh
     = ([], Sample.fresh)
  /\ length (semantic_search Sample.provider Sample.cosine_similarity
               Sample.query Sample.vision_results Sample.fresh).1
     = length (described Sample.vision_results).
Proof.
  assert (He : query_description Sample.open_query = "") by reflexivity.
  assert (Hn : query_description Sample.query <> "") by discriminate.
  split; [exact He|]. split; [exact Hn|]. split.
  - exact (proj1 (semantic_channel nat Sample.provider
                    Sample.cosine_similarity Sample.open_query
                    Sample.vision_results Sample.fresh) He).
  - exact (proj1 (proj2 (semantic_channel nat Sample.provider
                           Sample.cosine_similarity Sample.query
                           Sample.vision_results Sample.fresh) Hn)).
Defined.

Lemma embedding_cache_idempotent_witness :
  let w := (get_embedding Sample.provider "sea view" Sample.fresh).2 in
  embedding_cache (self w) !! "sea view" = Some 8
  /\ get_embedding Sample.provider "sea view" w = (8, w).
Proof.
  cbn zeta.
  assert (H : embedding_cache
                (self (get_embedding Sample.provider "sea view"
                         Sample.fresh).2) !! "sea view" = Some 8)
    by reflexivity.
  split; [exact H|].
  exact (proj1 (embedding_cache_idempotent nat Sample.provider
                  Sample.cosine_similarity elements) _ _ _ H).
Defined.

(** * Further facts about sorting *)

Section StableSort.
Context {A : Type} (key : A -> Q).

Lemma with_key_insert_desc (k : Q) (x : A) (l : list A) :
  with_key key k (insert_desc key x l) =
  if Qeq_bool (key x) k then x :: with_key key k l else with_key key k l.
Proof.
  unfold with_key. induction l as [|y l IH]; simpl; [reflexivity|].
  destruct (Qle_bool (key y) (key x)) eqn:E; simpl; [reflexivity|].
  rewrite IH.
  destruct (Qeq_bool (key x) k) eqn:Ex, (Qeq_bool (key y) k) eqn:Ey;
    try reflexivity.
  apply Qeq_bool_iff in Ex, Ey.
  assert (Hle : (key y <= key x)%Q) by (rewrite Ex, Ey; apply Qle_refl).
  apply Qle_bool_iff in Hle. congruence.
Qed.

(** The sort is stable: elements with equal keys keep their order. *)
Lemma sorted_desc_stable (k : Q) (l : list A) :
  with_key key k (sorted_desc key l) = with_key key k l.
Proof.
  induction l as [|x l IH]; [reflexivity|].
  cbn [sorted_desc]. rewrite with_key_insert_desc, IH. reflexivity.
Qed.

Lemma insert_desc_front (x : A) (l : list A) :
  Forall (fun y => (key y <= key x)%Q) l -> insert_desc key x l = x :: l.
Proof.
  intros H. destruct l as [|y l]; [reflexivity|]. simpl.
  apply Forall_cons in H as [Hy _]. apply Qle_bool_iff in Hy.
  now rewrite Hy.
Qed.

Lemma descending_bounded (y : A) (l : list A) :
  descending key (y :: l) -> Forall (fun z => (key z <= key y)%Q) l.
Proof.
  revert y. induction l as [|z l IH]; intros y H; [constructor|].
  inversion H as [|? ? Hs Hh]; subst. inversion Hh as [|? ? Hzy]; subst.
  constructor; [exact Hzy|].
  eapply Forall_impl; [apply (IH z Hs)|].
  intros u Hu. simpl in Hu. eapply Qle_trans; eauto.
Qed.

Lemma Forall_filter_keep (P : A -> Prop) (p : A -> bool) (l : list A) :
  Forall P l -> Forall P (List.filter p l).
Proof.
  induction 1 as [|u r Hu Hr IH]; simpl; [constructor|].
  destruct (p u); [constructor|]; auto.
Qed.

Lemma descending_tail (y : A) (l : list A) :
  descending key (y :: l) -> descending key l.
Proof. intros H. now inversion H. Qed.

(** Filtering a sorted list and inserting commute. *)
Lemma filter_insert_desc (p : A -> bool) (x : A) (l : list A) :
  descending key l ->
  List.filter p (insert_desc key x l) =
  if p x then insert_desc key x (List.filter p l) else List.filter p l.
Proof.
  induction l as [|y l IH]; intros Hd.
  - simpl. now destruct (p x).
  - pose proof (descending_bounded y l Hd) as Hb.
    specialize (IH (descending_tail y l Hd)).
    cbn [insert_desc]. destruct (Qle_bool (key y) (key x)) eqn:E.
    + cbn [List.filter]. destruct (p x) eqn:Ex; [|reflexivity].
      rewrite insert_desc_front; [reflexivity|].
      apply Qle_bool_iff in E.
      assert (Hall : Forall (fun z => (key z <= key x)%Q) (y :: l)).
      { constructor; [exact E|]. eapply Forall_impl; [exact Hb|].
        intros u Hu. simpl in Hu. eapply Qle_trans; eauto. }
      exact (Forall_filter_keep _ p (y :: l) Hall).
    + cbn [List.filter]. rewrite IH.
      destruct (p y) eqn:Ey, (p x) eqn:Ex; try reflexivity.
      cbn [insert_desc]. now rewrite E.
Qed.

Lemma filter_sorted_desc (p : A -> bool) (l : list A) :
  List.filter p (sorted_desc key l) = sorted_desc key (List.filter p l).
Proof.
  induction l as [|x l IH]; [reflexivity|].
  cbn [sorted_desc List.filter].
  rewrite filter_insert_desc by apply sorted_desc_descending.
  rewrite IH. now destruct (p x).
Qed.
End StableSort.

(** * Further facts about [keyword_search] *)

Lemma keyword_search_sorted_kept (q : room_json)
    (vision_results : list (string * room_json)) (min_score : Q) :
  keyword_search q vision_results min_score =
  sorted_desc hit_score (map (hit_of q) (kept q min_score vision_results)).
Proof. unfold keyword_search. now rewrite keyword_loop_filter. Qed.

(** X1.  [keyword_search] returns the hits of the candidates that reach
    the threshold, in descending order of score; hits with equal scores
    stand in the order of [vision_results]. *)
Theorem keyword_search_order (q : room_json)
    (vision_results : list (string * room_json)) (min_score : Q) :
  let hits := map (hit_of q) (kept q min_score vision_results) in
  descending hit_score (keyword_search q vision_results min_score)
  /\ keyword_search q vision_results min_score ≡ₚ hits
  /\ forall k : Q,
       with_key hit_score k (keyword_search q vision_results min_score)
       = with_key hit_score k hits.
Proof.
  cbn zeta. rewrite keyword_search_sorted_kept.
  split; [apply sorted_desc_descending|].
  split; [apply sorted_desc_perm|].
  intros k. apply sorted_desc_stable.
Qed.

Lemma normalized_in_unit (q c : room_json) :
  (0 <= normalized_score q c <= 1)%Q.
Proof.
  pose proof (score_nonneg q c) as H0.
  pose proof (score_le_max_score q c) as H1.
  unfold normalized_score, normalize.
  destruct (Qlt_le_dec 0 (max_score (score_candidate q c))) as [Hm|Hm].
  - split.
    + apply Qle_shift_div_l; [exact Hm | lra].
    + apply Qle_shift_div_r; [exact Hm | lra].
  - lra.
Qed.

Lemma kept_all (q : room_json) (items : list (string * room_json))
    (min_score : Q) :
  (min_score <= 0)%Q -> kept q min_score items = items.
Proof.
  intros Hm. unfold kept. induction items as [|[url c] items IH].
  - reflexivity.
  - rewrite filter_cons_True, IH; [reflexivity|].
    unfold passes. simpl. apply Qle_bool_iff.
    destruct (normalized_in_unit q c) as [H0 _].
    eapply Qle_trans; eauto.
Qed.

Lemma kept_none (q : room_json) (items : list (string * room_json))
    (min_score : Q) :
  (1 < min_score)%Q -> kept q min_score items = [].
Proof.
  intros Hm. unfold kept. induction items as [|[url c] items IH].
  - reflexivity.
  - rewrite filter_cons_False; [exact IH|].
    unfold passes. simpl. intros H. apply Qle_bool_iff in H.
    destruct (normalized_in_unit q c) as [_ H1]. lra.
Qed.

(** X2.  The edges of the threshold: with [min_score <= 0] every
    candidate is returned, with [min_score > 1] none is. *)
Theorem keyword_threshold_edges (q : room_json)
    (vision_results : list (string * room_json)) (min_score : Q) :
  ((min_score <= 0)%Q ->
   keyword_search q vision_results min_score ≡ₚ
     map (hit_of q) vision_results
   /\ length (keyword_search q vision_results min_score)
      = length vision_results)
  /\ ((1 < min_score)%Q ->
      keyword_search q vision_results min_score = []).
Proof.
  rewrite keyword_search_sorted_kept. split; intros Hm.
  - rewrite kept_all by exact Hm. split; [apply sorted_desc_perm|].
    now rewrite sorted_desc_perm, length_map.
  - now rewrite kept_none.
Qed.

Lemma at_least_kept (q : room_json) (items : list (string * room_json))
    (m1 m2 : Q) :
  (m1 <= m2)%Q ->
  map (hit_of q) (kept q m2 items)
  = at_least m2 (map (hit_of q) (kept q m1 items)).
Proof.
  intros Hm. unfold kept, at_least.
  induction items as [|[url c] items IH]; [reflexivity|].
  destruct (Qle_bool m2 (normalized_score q c)) eqn:E2.
  - assert (E1 : Qle_bool m1 (normalized_score q c) = true).
    { apply Qle_bool_iff. apply Qle_bool_iff in E2.
      eapply Qle_trans; eauto. }
    rewrite !filter_cons_True by assumption.
    cbn [map List.filter]. unfold hit_of at 3, hit_score. cbn [fst snd].
    rewrite E2. now rewrite IH.
  - rewrite (filter_cons_False (fun item => passes q m2 item = true))
      by (unfold passes; simpl; congruence).
    destruct (Qle_bool m1 (normalized_score q c)) eqn:E1.
    + rewrite filter_cons_True by assumption.
      cbn [map List.filter]. unfold hit_of at 2, hit_score. cbn [fst snd].
      now rewrite E2.
    + rewrite filter_cons_False by (unfold passes; simpl; congruence).
      exact IH.
Qed.

(** X3.  Raising the threshold only removes hits: the result for the
    higher threshold is the result for the lower one without the hits
    below the higher threshold, in the same order. *)
Theorem keyword_threshold_monotone (q : room_json)
    (vision_results : list (string * room_json)) (m1 m2 : Q) :
  (m1 <= m2)%Q ->
  keyword_search q vision_results m2
  = at_least m2 (keyword_search q vision_results m1).
Proof.
  intros Hm. rewrite !keyword_search_sorted_kept.
  rewrite (at_least_kept q vision_results m1 m2 Hm).
  unfold at_least. now rewrite filter_sorted_desc.
Qed.

(** What [match_details] holds after the four blocks. *)
Lemma details_closed_form (q c : room_json) :
  details (score_candidate q c) =
  MatchDetails (Some (query_description q))
    (if room_active q
     then Some (FieldDetail (query_room_type q) (vision_room_type c)
                  (room_match q c))
     else None)
    (if capacity_active q
     then Some (FieldDetail (query_max_capacity q) (vision_max_capacity c)
                  (capacity_match q c))
     else None)
    (if view_active q
     then Some (FieldDetail (query_view_type q) (vision_view_type c)
                  (view_match q c))
     else None)
    (if features_active q
     then Some (FeaturesDetail (query_features q) (vision_features c)
                  (matched q c))
     else None)
    None None None.
Proof.
  unfold score_candidate, features_block.
  destruct (features_active q) eqn:Ef.
  - match goal with |- context [outer_loop ?a ?b ?c ?d] =>
      pose proof (outer_loop_filter a b c d) as [H1 _];
      destruct (outer_loop a b c d) as [m s] end.
    cbn [fst] in H1. simpl in H1. subst m. fold (matched q c).
    unfold view_block, capacity_block, room_block.
    now destruct (room_active q), (capacity_active q), (view_active q).
  - unfold view_block, capacity_block, room_block.
    now destruct (room_active q), (capacity_active q), (view_active q).
Qed.

Lemma details_score_sound (q c : room_json) :
  (details_score (details (score_candidate q c))
   == score (score_candidate q c))%Q
  /\ (details_max_score (details (score_candidate q c))
      == max_score (score_candidate q c))%Q.
Proof.
  rewrite score_closed_form, max_score_closed_form, details_closed_form.
  unfold details_score, details_max_score.
  cbn [md_room_type md_max_capacity md_view_type md_features].
  assert (Hf : features_active q = false ->
               matched q c = [] /\ query_features q = []).
  { unfold features_active, matched. intros H.
    destruct (query_features q); [now split | discriminate]. }
  destruct (features_active q).
  - destruct (room_active q), (capacity_active q), (view_active q);
      cbn [entry_score entry_max fd_match ft_matches ft_query andb point];
      split; ring.
  - destruct Hf as [-> ->]; [reflexivity|].
    destruct (room_active q), (capacity_active q), (view_active q);
      cbn [entry_score entry_max fd_match ft_matches ft_query andb point];
      rewrite ?(len_Q_nil string); split; ring.
Qed.

Lemma details_normalized_sound (q c : room_json) :
  (details_normalized (details (score_candidate q c))
   == normalized_score q c)%Q.
Proof.
  destruct (details_score_sound q c) as [Hs Hm].
  unfold details_normalized, normalized_score, normalize.
  destruct (Qlt_le_dec 0 (details_max_score _)) as [H1|H1],
    (Qlt_le_dec 0 (max_score _)) as [H2|H2].
  - now rewrite Hs, Hm.
  - rewrite Hm in H1. lra.
  - rewrite Hm in H1. lra.
  - reflexivity.
Qed.

(** X4.  The [match_details] of a hit is a full record of its score:
    counting one point per entry whose ["match"] is set and one per
    recorded feature match, over one point per entry present and one per
    query feature, gives back the score of the hit, and the query's
    description is always recorded. *)
Theorem details_recompute_score (q : room_json)
    (vision_results : list (string * room_json)) (min_score : Q)
    (h : keyword_hit) :
  h ∈ keyword_search q vision_results min_score ->
  (details_normalized (hit_details h) == hit_score h)%Q
  /\ md_query_description (hit_details h) = Some (query_description q)
  /\ md_keyword_score (hit_details h) = None
  /\ md_semantic_score (hit_details h) = None
  /\ md_combined_score (hit_details h) = None.
Proof.
  intros Hh. apply keyword_search_elem in Hh as (c & _ & _ & ->).
  unfold hit_details, hit_score, hit_of. cbn [fst snd].
  split; [apply details_normalized_sound|].
  now rewrite details_closed_form.
Qed.

(** * Further facts about [hybrid_search] *)

Lemma keyword_details_lookup (kr : list keyword_hit) (url : string)
    (md : match_details) :
  NoDup (map hit_url kr) ->
  keyword_details kr !! url = Some md <->
  exists s : Q, (url, s, md) ∈ kr.
Proof.
  intros Hnd. unfold keyword_details. rewrite dict_of_lookup.
  - rewrite list_elem_of_fmap. split.
    + intros ([[u s] md'] & Heq & Hin). injection Heq as -> ->.
      now exists s.
    + intros [s Hin]. now exists (url, s, md).
  - unfold fmap, list_fmap.
    fold (@map (string * match_details) string fst).
    now rewrite map_map.
Qed.

Lemma keyword_details_dom (kr : list keyword_hit) (url : string) :
  url ∈ dom (keyword_details kr) <-> url ∈ map hit_url kr.
Proof.
  unfold keyword_details. rewrite dict_of_dom.
  unfold fmap, list_fmap.
  fold (@map (string * match_details) string fst).
  now rewrite map_map.
Qed.

Lemma slice_to_length_exact {A : Type} (n : Z) (l : list A) :
  Z.of_nat (length (slice_to n l)) =
  if (0 <=? n)%Z then Z.min n (Z.of_nat (length l))
  else Z.max 0 (Z.of_nat (length l) + n).
Proof.
  unfold slice_to. destruct (Z.leb_spec 0 n); rewrite length_take; lia.
Qed.

Lemma slice_to_all {A : Type} (n : Z) (l : list A) :
  (Z.of_nat (length l) <= n)%Z -> slice_to n l = l.
Proof.
  intros H. unfold slice_to. destruct (Z.leb_spec 0 n); [|lia].
  apply take_ge. lia.
Qed.

Section FurtherChannelFacts.
Variable Vec : Type.
Variable provider : list string -> string -> Vec.
Variable cosine_similarity : Vec -> Vec -> Q.
Variable set_iter : gset string -> list string.
Hypothesis set_iter_perm : forall X : gset string, set_iter X ≡ₚ elements X.

Lemma get_embedding_requests (text : string) (w : world Vec) :
  exists new : list string,
    requests (get_embedding provider text w).2 = requests w ++ new
    /\ (new = [] \/ new = [text]).
Proof.
  unfold get_embedding.
  destruct (embedding_cache (self w) !! text); simpl.
  - exists []. rewrite app_nil_r. split; [reflexivity | now left].
  - exists [text]. split; [reflexivity | now right].
Qed.

Lemma semantic_loop_requests (query_embedding : Vec)
    (items : list (string * room_json)) (results : list (string * Q))
    (w : world Vec) :
  exists new : list string,
    requests
      (semantic_loop provider cosine_similarity query_embedding items
         results w).2 = requests w ++ new
    /\ length new <= length (described items)
    /\ forall t : string, t ∈ new ->
         exists (url : string) (c : room_json),
           (url, c) ∈ described items /\ t = get (description c) "".
Proof.
  revert results w. induction items as [|[url c] items IH]; intros results w.
  - exists []. simpl. rewrite app_nil_r.
    split; [reflexivity|]. split; [lia|]. intros t H. inversion H.
  - cbn [semantic_loop]. unfold described.
    destruct (Str.truthy (get (description c) "")) eqn:E.
    + rewrite filter_cons_True by exact E. fold (described items).
      unfold bind.
      destruct (get_embedding_requests (get (description c) "") w)
        as (n1 & Hn1 & Hc).
      destruct (get_embedding provider (get (description c) "") w)
        as [ve w1].
      cbn [snd] in Hn1.
      destruct (IH (results ++ [(url, cosine_similarity query_embedding ve)])
                  w1) as (n2 & Hn2 & Hlen & Hin).
      exists (n1 ++ n2). rewrite Hn2, Hn1, <- app_assoc.
      split; [reflexivity|]. split.
      * rewrite length_app. cbn [length].
        destruct Hc as [-> | ->]; simpl; lia.
      * intros t Ht. apply elem_of_app in Ht as [Ht|Ht].
        -- destruct Hc as [-> | ->]; [inversion Ht|].
           apply list_elem_of_singleton in Ht. subst t.
           exists url, c. split; [left | reflexivity].
        -- destruct (Hin t Ht) as (u & d & Hd & Heq).
           exists u, d. split; [now right | exact Heq].
    + rewrite filter_cons_False; [fold (described items); apply IH|].
      change (Str.truthy (get (description c) "") <> true). congruence.
Qed.

Lemma semantic_search_requests (q : room_json)
    (vision_results : list (string * room_json)) (w : world Vec) :
  exists new : list string,
    requests
      (semantic_search provider cosine_similarity q vision_results w).2
    = requests w ++ new
    /\ length new <= S (length (described vision_results))
    /\ forall t : string, t ∈ new ->
         t <> "" /\
         (t = query_description q
          \/ exists (url : string) (c : room_json),
               (url, c) ∈ vision_results /\ t = get (description c) "").
Proof.
  unfold semantic_search.
  destruct (Str.truthy (query_description q)) eqn:E.
  - unfold bind, ret.
    destruct (get_embedding_requests (query_description q) w)
      as (n1 & Hn1 & Hc).
    destruct (get_embedding provider (query_description q) w) as [qe w1].
    cbn [snd] in Hn1.
    destruct (semantic_loop_requests qe vision_results [] w1)
      as (n2 & Hn2 & Hlen & Hin).
    destruct (semantic_loop provider cosine_similarity qe vision_results []
                w1) as [res w2].
    cbn [snd] in *. exists (n1 ++ n2). rewrite Hn2, Hn1, <- app_assoc.
    split; [reflexivity|]. split.
    + rewrite length_app. destruct Hc as [-> | ->]; simpl; lia.
    + intros t Ht. apply elem_of_app in Ht as [Ht|Ht].
      * destruct Hc as [-> | ->]; [inversion Ht|].
        apply list_elem_of_singleton in Ht. subst t.
        split; [now apply StrFacts.truthy_nonempty | now left].
      * destruct (Hin t Ht) as (u & d & Hd & Heq).
        apply described_elem in Hd as [Hd Hne]. subst t.
        split; [exact Hne|]. right. now exists u, d.
  - exists []. simpl. rewrite app_nil_r.
    split; [reflexivity|]. split; [lia|]. intros t H. inversion H.
Qed.

(** X5.  What [hybrid_search] asks of the provider: at most the query's
    description and the descriptions of the candidates, so at most one
    request more than there are candidates with a description, and never
    the empty text; with an empty query description it leaves the
    object as it was. *)
Theorem hybrid_search_requests (q : room_json)
    (vision_results : list (string * room_json)) (kmin smin : Q)
    (max_results : Z) (w : world Vec) :
  let out :=
    hybrid_search provider cosine_similarity set_iter q vision_results kmin
      smin max_results w in
  (exists new : list string,
     requests out.2 = requests w ++ new
     /\ length new <= S (length (described vision_results))
     /\ forall t : string, t ∈ new ->
          t <> "" /\
          (t = query_description q
           \/ exists (url : string) (c : room_json),
                (url, c) ∈ vision_results /\ t = get (description c) ""))
  /\ (query_description q = "" -> out.2 = w).
Proof.
  cbn zeta. rewrite hybrid_search_run. cbn [snd].
  split; [apply semantic_search_requests|].
  intros He. now rewrite semantic_search_inactive.
Qed.

Lemma set_iter_empty : set_iter ∅ = [].
Proof.
  apply Permutation_nil_r. rewrite set_iter_perm.
  now rewrite elements_empty.
Qed.

(** X6.  On an empty corpus [hybrid_search] returns the empty list,
    whatever the thresholds and the limit. *)
Theorem hybrid_search_empty_corpus (q : room_json) (kmin smin : Q)
    (max_results : Z) (w : world Vec) :
  (hybrid_search provider cosine_similarity set_iter q [] kmin smin
     max_results w).1 = [].
Proof.
  rewrite hybrid_search_run by exact set_iter_perm. cbn [fst].
  pose proof (hybrid_ranked_run Vec provider cosine_similarity set_iter q []
                kmin smin w) as Hr.
  cbn zeta in Hr. rewrite Hr. cbn [fst].
  assert (Hs : (semantic_search provider cosine_similarity q [] w).1 = []).
  { unfold semantic_search.
    destruct (Str.truthy (query_description q)); [|reflexivity].
    unfold bind, ret. simpl.
    now destruct (get_embedding provider (query_description q) w). }
  rewrite Hs. change (keyword_search q [] kmin) with (@nil keyword_hit).
  unfold keyword_scores, semantic_scores, dict_of. simpl.
  rewrite dom_empty_L, union_empty_l_L, set_iter_empty.
  unfold slice_to. destruct (0 <=? max_results)%Z; apply take_nil.
Qed.

End FurtherChannelFacts.

Section RankedFacts.
Variable Vec : Type.
Variable provider : list string -> string -> Vec.
Variable cosine_similarity : Vec -> Vec -> Q.
Variable set_iter : gset string -> list string.
Hypothesis set_iter_perm : forall X : gset string, set_iter X ≡ₚ elements X.

(** Every ranked hit is [combine] at its own url. *)
Lemma hybrid_ranked_elem (q : room_json)
    (vision_results : list (string * room_json)) (kmin smin : Q)
    (w : world Vec) (h : keyword_hit) :
  let kr := keyword_search q vision_results kmin in
  let sr :=
    (semantic_search provider cosine_similarity q vision_results w).1 in
  h ∈ (hybrid_ranked provider cosine_similarity set_iter q vision_results
         kmin smin w).1 ->
  h = combine (keyword_weight (self w)) (semantic_weight (self w))
        (keyword_scores kr) (keyword_details kr) (semantic_scores sr smin)
        (hit_url h)
  /\ (hit_url h ∈ map hit_url kr
      \/ exists s : Q, (hit_url h, s) ∈ sr /\ (smin <= s)%Q).
Proof.
  cbn zeta.
  pose proof (hybrid_ranked_run Vec provider cosine_similarity set_iter q
                vision_results kmin smin w) as Hr.
  cbn zeta in Hr. rewrite Hr. cbn [fst]. clear Hr. intros Hh.
  apply sorted_desc_elem, list_elem_of_fmap in Hh as (url & -> & Hin).
  split; [reflexivity|].
  change (hit_url (combine _ _ _ _ _ url)) with url.
  rewrite set_iter_perm in Hin.
  apply elem_of_elements, elem_of_union in Hin.
  now rewrite keyword_scores_dom, semantic_scores_dom in Hin.
Qed.

(** X7.  The details of a ranked hit carry the three scores.  A hit
    that passed the keyword threshold keeps the entries [keyword_search]
    recorded for it; a hit that came through the semantic channel alone
    has no other entry, not even the query's description. *)
Theorem hybrid_details (q : room_json)
    (vision_results : list (string * room_json)) (kmin smin : Q)
    (w : world Vec) (h : keyword_hit) :
  NoDup vision_results.*1 ->
  let kr := keyword_search q vision_results kmin in
  let sr :=
    (semantic_search provider cosine_similarity q vision_results w).1 in
  h ∈ (hybrid_ranked provider cosine_similarity set_iter q vision_results
         kmin smin w).1 ->
  md_combined_score (hit_details h) = Some (hit_score h)
  /\ md_keyword_score (hit_details h)
     = Some (get (keyword_scores kr !! hit_url h) 0%Q)
  /\ md_semantic_score (hit_details h)
     = Some (get (semantic_scores sr smin !! hit_url h) 0%Q)
  /\ (forall c : room_json,
        (hit_url h, c) ∈ vision_results ->
        (kmin <= normalized_score q c)%Q ->
        hit_details h =
        annotate (details (score_candidate q c))
          (get (semantic_scores sr smin !! hit_url h) 0%Q)
          (normalized_score q c) (hit_score h))
  /\ (hit_url h ∉ map hit_url kr ->
      hit_details h =
      annotate empty_details
        (get (semantic_scores sr smin !! hit_url h) 0%Q) 0%Q (hit_score h)
      /\ md_query_description (hit_details h) = None).
Proof.
  intros Hnd. cbn zeta. intros Hh.
  destruct (hybrid_ranked_elem q vision_results kmin smin w h Hh)
    as [Heq _].
  set (url := hit_url h) in *.
  set (kr := keyword_search q vision_results kmin) in *.
  assert (Hkr : NoDup (map hit_url kr))
    by now apply keyword_search_urls_NoDup.
  rewrite Heq. unfold combine, hit_details, hit_score. cbn [fst snd].
  split; [reflexivity|]. split; [reflexivity|]. split; [reflexivity|].
  split.
  - intros c Hc Hle.
    assert (Hin : hit_of q (url, c) ∈ kr).
    { apply keyword_search_elem. exists c.
      split; [exact Hc|]. split; [exact Hle | exact eq_refl]. }
    assert (Hs : keyword_scores kr !! url = Some (normalized_score q c)).
    { apply keyword_scores_lookup; [exact Hkr|].
      exists (details (score_candidate q c)). exact Hin. }
    assert (Hd : keyword_details kr !! url
                 = Some (details (score_candidate q c))).
    { apply keyword_details_lookup; [exact Hkr|].
      exists (normalized_score q c). exact Hin. }
    now rewrite Hs, Hd.
  - intros Hout.
    assert (Hs : keyword_scores kr !! url = None).
    { apply not_elem_of_dom. now rewrite keyword_scores_dom. }
    assert (Hd : keyword_details kr !! url = None).
    { apply not_elem_of_dom. now rewrite keyword_details_dom. }
    now rewrite Hs, Hd.
Qed.

(** X8.  With an empty query description the semantic channel adds
    nothing: the ranked hits are those of [keyword_search], each with
    [keyword_weight] times its keyword score. *)
Theorem hybrid_without_description (q : room_json)
    (vision_results : list (string * room_json)) (kmin smin : Q)
    (w : world Vec) :
  NoDup vision_results.*1 ->
  query_description q = "" ->
  let ranked :=
    (hybrid_ranked provider cosine_similarity set_iter q vision_results kmin
       smin w).1 in
  map hit_url ranked ≡ₚ map hit_url (keyword_search q vision_results kmin)
  /\ forall h : keyword_hit,
       h ∈ ranked ->
       exists c : room_json,
         (hit_url h, c) ∈ vision_results
         /\ (kmin <= normalized_score q c)%Q
         /\ (hit_score h
             == keyword_weight (self w) * normalized_score q c)%Q.
Proof.
  intros Hnd He. cbn zeta.
  assert (Hsr : (semantic_search provider cosine_similarity q vision_results
                   w).1 = [])
    by now rewrite semantic_search_inactive.
  set (kr := keyword_search q vision_results kmin).
  assert (Hkr : NoDup (map hit_url kr))
    by now apply keyword_search_urls_NoDup.
  split.
  - pose proof (hybrid_ranked_run Vec provider cosine_similarity set_iter q
                  vision_results kmin smin w) as Hr.
    cbn zeta in Hr. rewrite Hr, Hsr. cbn [fst].
    rewrite sorted_desc_perm, map_map.
    erewrite map_ext; [rewrite map_id | reflexivity].
    rewrite set_iter_perm.
    unfold semantic_scores, dict_of. simpl.
    rewrite dom_empty_L, union_empty_r_L.
    apply NoDup_Permutation; [apply NoDup_elements | exact Hkr |].
    intros url. now rewrite elem_of_elements, keyword_scores_dom.
  - intros h Hh.
    destruct (hybrid_ranked_elem q vision_results kmin smin w h Hh)
      as [Heq Hor].
    cbn zeta in Heq, Hor. rewrite Hsr in Heq, Hor.
    destruct Hor as [Hin | (s & Hin & _)]; [|inversion Hin].
    fold kr in Hin, Heq.
    apply list_elem_of_fmap in Hin as (h' & Hu & Hin).
    pose proof Hin as Hin'.
    apply keyword_search_elem in Hin' as (c & Hc & Hle & Hh').
    exists c. rewrite Hu. split; [exact Hc|]. split; [exact Hle|].
    assert (Hs : keyword_scores kr !! hit_url h
                 = Some (normalized_score q c)).
    { apply keyword_scores_lookup; [exact Hkr|].
      exists (hit_details h'). rewrite Hu.
      rewrite Hh' in Hin. rewrite Hh'. exact Hin. }
    rewrite Heq at 1. unfold combine, hit_score. cbn [fst snd].
    rewrite Hs. unfold semantic_scores, dict_of. simpl.
    rewrite lookup_empty. simpl. ring.
Qed.

(** X9.  With weights and semantic threshold that are not negative and
    a similarity that never exceeds one, every combined score lies
    between zero and the sum of the two weights. *)
Theorem combined_score_bounds (q : room_json)
    (vision_results : list (string * room_json)) (kmin smin : Q)
    (w : world Vec) (h : keyword_hit) :
  NoDup vision_results.*1 ->
  (0 <= keyword_weight (self w))%Q ->
  (0 <= semantic_weight (self w))%Q ->
  (0 <= smin)%Q ->
  (forall a b : Vec, (cosine_similarity a b <= 1)%Q) ->
  h ∈ (hybrid_ranked provider cosine_similarity set_iter q vision_results
         kmin smin w).1 ->
  (0 <= hit_score h
   <= keyword_weight (self w) + semantic_weight (self w))%Q.
Proof.
  intros Hnd Hkw Hsw Hsm Hcos Hh.
  destruct (hybrid_ranked_elem q vision_results kmin smin w h Hh)
    as [Heq _].
  cbn zeta in Heq.
  set (kr := keyword_search q vision_results kmin) in *.
  set (sr := (semantic_search provider cosine_similarity q vision_results
                w).1) in *.
  assert (Hk : (0 <= get (keyword_scores kr !! hit_url h) 0 <= 1)%Q).
  { destruct (keyword_scores kr !! hit_url h) as [s|] eqn:E; simpl;
      [|lra].
    apply keyword_scores_lookup in E as [md Hin];
      [|now apply keyword_search_urls_NoDup].
    apply keyword_search_elem in Hin as (c & _ & _ & Heq').
    injection Heq' as Hs _. rewrite Hs. apply normalized_in_unit. }
  assert (Hs : (0 <= get (semantic_scores sr smin !! hit_url h) 0 <= 1)%Q).
  { destruct (semantic_scores sr smin !! hit_url h) as [s|] eqn:E; simpl;
      [|lra].
    apply semantic_scores_lookup_elem in E as [Hin Hle].
    split; [lra|].
    destruct (decide (query_description q = "")) as [He|Hne].
    - unfold sr in Hin. rewrite semantic_search_inactive in Hin by exact He.
      inversion Hin.
    - destruct (semantic_search_run Vec provider cosine_similarity q
                  vision_results w Hne) as (_ & _ & Hrun).
      destruct (Hrun (hit_url h) s Hin) as (c & _ & qe & ve & _ & _ & ->).
      apply Hcos. }
  rewrite Heq. unfold combine, hit_score. cbn [fst snd].
  set (a := get (keyword_scores kr !! hit_url h) 0%Q) in *.
  set (b := get (semantic_scores sr smin !! hit_url h) 0%Q) in *.
  set (kw := keyword_weight (self w)) in *.
  set (sw := semantic_weight (self w)) in *.
  clearbody a b kw sw. clear -Hkw Hsw Hk Hs. nra.
Qed.

(** X10.  How many hits [hybrid_search] returns: [max_results] of them
    or all when there are fewer; a negative [max_results] leaves that
    many off the end; a [max_results] that reaches the number of ranked
    hits cuts nothing. *)
Theorem hybrid_search_count (q : room_json)
    (vision_results : list (string * room_json)) (kmin smin : Q)
    (max_results : Z) (w : world Vec) :
  let result :=
    (hybrid_search provider cosine_similarity set_iter q vision_results kmin
       smin max_results w).1 in
  let ranked :=
    (hybrid_ranked provider cosine_similarity set_iter q vision_results kmin
       smin w).1 in
  Z.of_nat (length result) =
    (if (0 <=? max_results)%Z
     then Z.min max_results (Z.of_nat (length ranked))
     else Z.max 0 (Z.of_nat (length ranked) + max_results))
  /\ ((Z.of_nat (length ranked) <= max_results)%Z -> result = ranked)
  /\ (length ranked <= length vision_results)%nat.
Proof.
  cbn zeta. rewrite hybrid_search_run. cbn [fst].
  split; [apply slice_to_length_exact|]. split; [apply slice_to_all|].
  pose proof (hybrid_ranked_run Vec provider cosine_similarity set_iter q
                vision_results kmin smin w) as Hr.
  cbn zeta in Hr. rewrite Hr. cbn [fst]. clear Hr.
  rewrite sorted_desc_perm, length_map, set_iter_perm.
  set (kr := keyword_search q vision_results kmin).
  set (sr := (semantic_search provider cosine_similarity q vision_results
                w).1).
  assert (Hsub : forall url : string,
            url ∈ elements (dom (keyword_scores kr)
                            ∪ dom (semantic_scores sr smin)) ->
            url ∈ vision_results.*1).
  { intros url Hin. apply elem_of_elements, elem_of_union in Hin.
    rewrite keyword_scores_dom, semantic_scores_dom in Hin.
    destruct Hin as [Hin | (s & Hin & _)].
    - apply keyword_search_url in Hin as (c & Hc & _).
      apply list_elem_of_fmap. now exists (url, c).
    - destruct (decide (query_description q = "")) as [He|Hne].
      + unfold sr in Hin.
        rewrite semantic_search_inactive in Hin by exact He.
        inversion Hin.
      + destruct (semantic_search_run Vec provider cosine_similarity q
                    vision_results w Hne) as (_ & _ & Hrun).
        destruct (Hrun url s Hin) as (c & Hc & _).
        apply described_elem in Hc as [Hc _].
        apply list_elem_of_fmap. now exists (url, c). }
  rewrite <- (length_fmap fst vision_results).
  apply submseteq_length, NoDup_submseteq; [apply NoDup_elements|].
  exact Hsub.
Qed.

End RankedFacts.

(** * The further statements at the sample corpus *)

(** The best hit of the sample search. *)
Lemma sample_hit :
  hit_of Sample.query ("image1.jpg", Sample.image1)
  ∈ keyword_search Sample.query Sample.vision_results (3 # 10).
Proof.
  apply keyword_search_elem. exists Sample.image1.
  split; [left|]. split; [|reflexivity].
  apply Qle_bool_iff. now vm_compute.
Defined.

Lemma sample_ranked_hit :
  List.hd (hit_of Sample.query ("image1.jpg", Sample.image1))
    (hybrid_ranked Sample.provider Sample.cosine_similarity elements
       Sample.query Sample.vision_results (3 # 10) (1 # 2) Sample.fresh).1
  ∈ (hybrid_ranked Sample.provider Sample.cosine_similarity elements
       Sample.query Sample.vision_results (3 # 10) (1 # 2) Sample.fresh).1.
Proof. vm_compute. left. Defined.

Lemma keyword_threshold_edges_witness :
  (0 <= 0)%Q /\ (1 < 2)%Q
  /\ length (keyword_search Sample.query Sample.vision_results 0) = 3
  /\ keyword_search Sample.query Sample.vision_results 2 = [].
Proof.
  assert (H0 : (0 <= 0)%Q) by apply Qle_refl.
  assert (H2 : (1 < 2)%Q) by reflexivity.
  split; [exact H0|]. split; [exact H2|].
  destruct (keyword_threshold_edges Sample.query Sample.vision_results 0)
    as [Ha _].
  destruct (keyword_threshold_edges Sample.query Sample.vision_results 2)
    as [_ Hb].
  split; [exact (proj2 (Ha H0)) | exact (Hb H2)].
Defined.

Lemma keyword_threshold_monotone_witness :
  (3 # 10 <= 1 # 2)%Q
  /\ keyword_search Sample.query Sample.vision_results (1 # 2)
     = at_least (1 # 2)
         (keyword_search Sample.query Sample.vision_results (3 # 10)).
Proof.
  assert (H : (3 # 10 <= 1 # 2)%Q) by discriminate.
  split; [exact H|].
  exact (keyword_threshold_monotone Sample.query Sample.vision_results
           (3 # 10) (1 # 2) H).
Defined.

Lemma details_recompute_score_witness :
  hit_of Sample.query ("image1.jpg", Sample.image1)
  ∈ keyword_search Sample.query Sample.vision_results (3 # 10)
  /\ (details_normalized
        (hit_details (hit_of Sample.query ("image1.jpg", Sample.image1)))
      == hit_score (hit_of Sample.query ("image1.jpg", Sample.image1)))%Q.
Proof.
  split; [exact sample_hit|].
  exact (proj1 (details_recompute_score Sample.query Sample.vision_results
                  (3 # 10) _ sample_hit)).
Defined.

Lemma hybrid_search_requests_witness :
  query_description Sample.open_query = ""
  /\ (hybrid_search Sample.provider Sample.cosine_similarity elements
        Sample.open_query Sample.vision_results (3 # 10) (1 # 2) 5
        Sample.fresh).2 = Sample.fresh.
Proof.
  assert (He : query_description Sample.open_query = "") by reflexivity.
  split; [exact He|].
  exact (proj2 (hybrid_search_requests nat Sample.provider
                  Sample.cosine_similarity elements Sample.open_query
                  Sample.vision_results (3 # 10) (1 # 2) 5 Sample.fresh) He).
Defined.

Lemma hybrid_search_empty_corpus_witness :
  (forall X : gset string, elements X ≡ₚ elements X)
  /\ (hybrid_search Sample.provider Sample.cosine_similarity elements
        Sample.query [] (3 # 10) (1 # 2) 5 Sample.fresh).1 = [].
Proof.
  split; [exact elements_perm|].
  exact (hybrid_search_empty_corpus nat Sample.provider
           Sample.cosine_similarity elements elements_perm Sample.query
           (3 # 10) (1 # 2) 5 Sample.fresh).
Defined.

Lemma hybrid_details_witness :
  NoDup Sample.vision_results.*1
  /\ md_combined_score
       (hit_details
          (List.hd (hit_of Sample.query ("image1.jpg", Sample.image1))
             (hybrid_ranked Sample.provider Sample.cosine_similarity
                elements Sample.query Sample.vision_results (3 # 10)
                (1 # 2) Sample.fresh).1))
     = Some
         (hit_score
            (List.hd (hit_of Sample.query ("image1.jpg", Sample.image1))
               (hybrid_ranked Sample.provider Sample.cosine_similarity
                  elements Sample.query Sample.vision_results (3 # 10)
                  (1 # 2) Sample.fresh).1)).
Proof.
  split; [exact sample_keys_distinct|].
  exact (proj1 (hybrid_details nat Sample.provider Sample.cosine_similarity
                  elements elements_perm Sample.query Sample.vision_results
                  (3 # 10) (1 # 2) Sample.fresh _ sample_keys_distinct
                  sample_ranked_hit)).
Defined.

Lemma hybrid_without_description_witness :
  NoDup Sample.vision_results.*1
  /\ query_description Sample.twice = ""
  /\ map hit_url
       (hybrid_ranked Sample.provider Sample.cosine_similarity elements
          Sample.twice Sample.vision_results (3 # 10) (1 # 2)
          Sample.fresh).1
     ≡ₚ map hit_url
          (keyword_search Sample.twice Sample.vision_results (3 # 10)).
Proof.
  assert (He : query_description Sample.twice = "") by reflexivity.
  split; [exact sample_keys_distinct|]. split; [exact He|].
  exact (proj1 (hybrid_without_description nat Sample.provider
                  Sample.cosine_similarity elements elements_perm
                  Sample.twice Sample.vision_results (3 # 10) (1 # 2)
                  Sample.fresh sample_keys_distinct He)).
Defined.

Lemma sample_cosine_le_1 (a b : nat) : (Sample.cosine_similarity a b <= 1)%Q.
Proof.
  unfold Sample.cosine_similarity. destruct (a =? b)%nat; discriminate.
Defined.

Lemma combined_score_bounds_witness :
  NoDup Sample.vision_results.*1
  /\ (0 <= keyword_weight (self Sample.fresh))%Q
  /\ (0 <= semantic_weight (self Sample.fresh))%Q
  /\ (0 <= 1 # 2)%Q
  /\ (forall a b : nat, (Sample.cosine_similarity a b <= 1)%Q)
  /\ (0 <= hit_score
            (List.hd (hit_of Sample.query ("image1.jpg", Sample.image1))
               (hybrid_ranked Sample.provider Sample.cosine_similarity
                  elements Sample.query Sample.vision_results (3 # 10)
                  (1 # 2) Sample.fresh).1)
      <= keyword_weight (self Sample.fresh)
         + semantic_weight (self Sample.fresh))%Q.
Proof.
  assert (Hk : (0 <= keyword_weight (self Sample.fresh))%Q) by discriminate.
  assert (Hs : (0 <= semantic_weight (self Sample.fresh))%Q)
    by discriminate.
  assert (Hm : (0 <= 1 # 2)%Q) by discriminate.
  split; [exact sample_keys_distinct|]. split; [exact Hk|].
  split; [exact Hs|]. split; [exact Hm|].
  split; [exact sample_cosine_le_1|].
  exact (combined_score_bounds nat Sample.provider Sample.cosine_similarity
           elements elements_perm Sample.query Sample.vision_results
           (3 # 10) (1 # 2) Sample.fresh _ sample_keys_distinct Hk Hs Hm
           sample_cosine_le_1 sample_ranked_hit).
Defined.

Lemma hybrid_search_count_witness :
  let ranked :=
    (hybrid_ranked Sample.provider Sample.cosine_similarity elements
       Sample.query Sample.vision_results (3 # 10) (1 # 2) Sample.fresh).1 in
  (Z.of_nat (length ranked) <= 5)%Z
  /\ (hybrid_search Sample.provider Sample.cosine_similarity elements
        Sample.query Sample.vision_results (3 # 10) (1 # 2) 5
        Sample.fresh).1 = ranked.
Proof.
  cbn zeta.
  assert (H : (Z.of_nat
                 (length
                    (hybrid_ranked Sample.provider Sample.cosine_similarity
                       elements Sample.query Sample.vision_results (3 # 10)
                       (1 # 2) Sample.fresh).1) <= 5)%Z)
    by (vm_compute; discriminate).
  split; [exact H|].
  exact (proj1 (proj2 (hybrid_search_count nat Sample.provider
                         Sample.cosine_similarity elements elements_perm
                         Sample.query Sample.vision_results (3 # 10) (1 # 2)
                         5 Sample.fresh)) H).
Defined.

(** * Facts about [format_search_results] *)

Lemma str_append_assoc (a b c : string) :
  ((a ++ b) ++ c = a ++ (b ++ c))%string.
Proof.
  induction a as [|x a IH]; [reflexivity|].
  change (String x ((a ++ b) ++ c) = String x (a ++ (b ++ c)))%string.
  now f_equal.
Qed.

Lemma str_append_nil_r (a : string) : (a ++ "" = a)%string.
Proof.
  induction a as [|x a IH]; [reflexivity|].
  change (String x (a ++ "") = String x a)%string. now f_equal.
Qed.

Lemma str_append_nil_l (a : string) : ("" ++ a = a)%string.
Proof. reflexivity. Qed.

Section FormattingFacts.
Variable fmt2 : Q -> string.

Lemma format_text_entry_append (label : string)
    (entry : option (field_detail string)) (output : string) :
  format_text_entry label entry output
  = (output ++ format_text_entry label entry "")%string.
Proof.
  destruct entry as [info|]; simpl.
  - reflexivity.
  - now rewrite str_append_nil_r.
Qed.

Lemma format_capacity_entry_append (entry : option (field_detail Z))
    (output : string) :
  format_capacity_entry entry output
  = (output ++ format_capacity_entry entry "")%string.
Proof.
  destruct entry as [info|]; simpl.
  - reflexivity.
  - now rewrite str_append_nil_r.
Qed.

Lemma format_feature_lines_append (fd : features_detail)
    (query : list string) (output : string) :
  format_feature_lines fd query output
  = (output ++ format_feature_lines fd query "")%string.
Proof.
  revert output. induction query as [|f query IH]; intros output.
  - simpl. now rewrite str_append_nil_r.
  - cbn [format_feature_lines]. rewrite IH.
    rewrite (IH ("" ++ _)%string). cbn [String.append].
    now rewrite !str_append_assoc.
Qed.

Lemma format_features_entry_append (entry : option features_detail)
    (output : string) :
  format_features_entry entry output
  = (output ++ format_features_entry entry "")%string.
Proof.
  destruct entry as [fd|]; cbn [format_features_entry].
  - cbv zeta. rewrite format_feature_lines_append.
    rewrite (format_feature_lines_append fd _ ("" ++ _)%string).
    rewrite ?str_append_nil_l. now rewrite !str_append_assoc.
  - now rewrite str_append_nil_r.
Qed.

Lemma format_hit_append (vision_results : list (string * room_json))
    (i : nat) (h : keyword_hit) (output : string) :
  format_hit fmt2 vision_results i h output
  = (output ++ format_block fmt2 vision_results i h)%string.
Proof.
  unfold format_block, format_hit. destruct h as [[url s] md]. cbv zeta.
  rewrite (format_text_entry_append "Room Type").
  rewrite format_capacity_entry_append.
  rewrite (format_text_entry_append "View").
  rewrite format_features_entry_append.
  symmetry.
  rewrite (format_text_entry_append "Room Type").
  rewrite format_capacity_entry_append.
  rewrite (format_text_entry_append "View").
  rewrite format_features_entry_append.
  rewrite ?str_append_nil_l. now rewrite !str_append_assoc.
Qed.

Lemma format_loop_blocks (vision_results : list (string * room_json))
    (i : nat) (hits : list keyword_hit) (output : string) :
  format_loop fmt2 vision_results i hits output
  = (output ++ format_blocks fmt2 vision_results i hits)%string.
Proof.
  revert i output. induction hits as [|h hits IH]; intros i output.
  - simpl. now rewrite str_append_nil_r.
  - cbn [format_loop format_blocks]. rewrite IH, format_hit_append.
    now rewrite str_append_assoc.
Qed.

Lemma format_blocks_app (vision_results : list (string * room_json))
    (i : nat) (l1 l2 : list keyword_hit) :
  format_blocks fmt2 vision_results i (l1 ++ l2)
  = (format_blocks fmt2 vision_results i l1
     ++ format_blocks fmt2 vision_results (i + length l1) l2)%string.
Proof.
  revert i. induction l1 as [|h l1 IH]; intros i.
  - simpl. now rewrite Nat.add_0_r.
  - cbn [app format_blocks length]. rewrite IH, str_append_assoc.
    now rewrite Nat.add_succ_r.
Qed.

(** X11.  The report of [format_search_results] is the no-result
    sentence exactly for an empty list; otherwise it is the header with
    the number of hits followed by one block per hit in rank order, the
    block of a hit depending only on its rank, the hit and
    [vision_results]. *)
Theorem format_search_results_blocks
    (search_results : list keyword_hit)
    (vision_results : list (string * room_json)) :
  (format_search_results fmt2 search_results vision_results
   = "No matching rooms found." <-> search_results = [])
  /\ (search_results <> [] ->
      format_search_results fmt2 search_results vision_results
      = ("Found " ++ str_len search_results ++ " matching rooms:" ++ nl
         ++ nl ++ format_blocks fmt2 vision_results 1 search_results)%string)
  /\ (forall (i : nat) (l1 l2 : list keyword_hit),
        format_blocks fmt2 vision_results i (l1 ++ l2)
        = (format_blocks fmt2 vision_results i l1
           ++ format_blocks fmt2 vision_results (i + length l1) l2)%string).
Proof.
  split; [|split; [|intros; apply format_blocks_app]].
  - destruct search_results as [|h rest]; [now split|].
    unfold format_search_results. rewrite format_loop_blocks.
    split; [|discriminate]. cbn [String.append]. discriminate.
  - intros Hne. destruct search_results as [|h rest]; [contradiction|].
    unfold format_search_results. rewrite format_loop_blocks.
    now rewrite !str_append_assoc.
Qed.

End FormattingFacts.

Lemma ticked_elem (fd : features_detail) (f : string) :
  ticked fd f = true <-> f ∈ ft_matches fd.
Proof.
  unfold ticked. rewrite existsb_exists. split.
  - intros (x & Hx & He). apply String.eqb_eq in He. subst x.
    now apply list_elem_of_In.
  - intros H. exists f. split; [now apply list_elem_of_In|].
    apply String.eqb_refl.
Qed.

Lemma ticked_matched (q c : room_json) (f : string) :
  f ∈ query_features q ->
  ticked (FeaturesDetail (query_features q) (vision_features c)
            (matched q c)) f
  = inner_loop f (vision_features c).
Proof.
  intros Hf. apply eq_true_iff_eq. rewrite ticked_elem. cbn [ft_matches].
  unfold matched. rewrite list_elem_of_filter. tauto.
Qed.

Lemma ticked_count (q c : room_json) :
  length
    (List.filter
       (ticked (FeaturesDetail (query_features q) (vision_features c)
                  (matched q c)))
       (query_features q))
  = length (matched q c).
Proof.
  unfold matched at 2.
  assert (H : forall l : list string,
            (forall f, f ∈ l -> f ∈ query_features q) ->
            length
              (List.filter
                 (ticked (FeaturesDetail (query_features q)
                            (vision_features c) (matched q c))) l)
            = length
                (filter (fun f => inner_loop f (vision_features c) = true)
                   l)).
  { induction l as [|f l IH]; intros Hsub; [reflexivity|].
    cbn [List.filter]. rewrite ticked_matched by (apply Hsub; left).
    destruct (inner_loop f (vision_features c)) eqn:E.
    - rewrite filter_cons_True by exact E. cbn [length].
      now rewrite IH by (intros g Hg; apply Hsub; now right).
    - rewrite filter_cons_False by congruence.
      now apply IH; intros g Hg; apply Hsub; right. }
  now apply H.
Qed.

(** X12.  What the report shows for the features of a hit of
    [keyword_search] agrees with the scoring: a query feature is ticked
    exactly when some candidate feature contains it, and the number of
    ticked lines is the number of recorded matches, the numerator of the
    count that heads them. *)
Theorem report_ticks_agree (q : room_json)
    (vision_results : list (string * room_json)) (min_score : Q)
    (h : keyword_hit) (fd : features_detail) :
  h ∈ keyword_search q vision_results min_score ->
  md_features (hit_details h) = Some fd ->
  length (List.filter (ticked fd) (ft_query fd)) = length (ft_matches fd)
  /\ (forall f : string,
        f ∈ ft_query fd -> ticked fd f = inner_loop f (ft_vision fd))
  /\ ft_query fd = query_features q.
Proof.
  intros Hh Hfd. apply keyword_search_elem in Hh as (c & _ & _ & Heq).
  rewrite Heq in Hfd. unfold hit_details, hit_of in Hfd.
  cbn [fst snd] in Hfd.
  rewrite details_closed_form in Hfd. cbn [md_features] in Hfd.
  destruct (features_active q); [|discriminate].
  injection Hfd as <-. cbn [ft_query ft_matches ft_vision].
  split; [apply ticked_count|]. split; [|reflexivity].
  intros f Hf. now apply ticked_matched.
Qed.

(** * The order of the semantic results *)

Lemma with_key_sublist {A : Type} (key : A -> Q) (k : Q) (l : list A) :
  with_key key k l `sublist_of` l.
Proof.
  unfold with_key. induction l as [|x l IH]; simpl; [constructor|].
  destruct (Qeq_bool (key x) k); now constructor.
Qed.

Lemma described_sublist (items : list (string * room_json)) :
  described items `sublist_of` items.
Proof. unfold described. apply sublist_filter. Qed.

Section SemanticOrder.
Variable Vec : Type.
Variable provider : list string -> string -> Vec.
Variable cosine_similarity : Vec -> Vec -> Q.

(** The list [semantic_search] sorts holds the candidates with a
    description in the order of the corpus. *)
Lemma semantic_search_sorted (q : room_json)
    (vision_results : list (string * room_json)) (w : world Vec) :
  exists results : list (string * Q),
    (semantic_search provider cosine_similarity q vision_results w).1
    = sorted_desc snd results
    /\ results.*1 `sublist_of` vision_results.*1.
Proof.
  unfold semantic_search.
  destruct (Str.truthy (query_description q)).
  - unfold bind, ret.
    destruct (get_embedding provider (query_description q) w) as [qe w1].
    pose proof (semantic_loop_run Vec provider cosine_similarity qe
                  vision_results [] w1) as Hrun.
    cbn zeta in Hrun.
    destruct (semantic_loop provider cosine_similarity qe vision_results []
                w1) as [res w2].
    cbn [fst snd] in *. destruct Hrun as (_ & _ & fresh & Hf & Hu & _).
    simpl in Hf. subst res. exists fresh. split; [reflexivity|].
    rewrite Hu. apply fmap_sublist, described_sublist.
  - exists []. split; [reflexivity|]. apply sublist_nil_l.
Qed.

(** X13.  [semantic_search] returns its pairs in descending order of
    similarity, pairs with equal similarity in the order of
    [vision_results], and at most one pair per candidate. *)
Theorem semantic_search_order (q : room_json)
    (vision_results : list (string * room_json)) (w : world Vec) :
  let result :=
    (semantic_search provider cosine_similarity q vision_results w).1 in
  descending snd result
  /\ (forall k : Q,
        (with_key snd k result).*1 `sublist_of` vision_results.*1)
  /\ length result <= length vision_results
  /\ (NoDup vision_results.*1 -> NoDup result.*1).
Proof.
  cbn zeta.
  destruct (semantic_search_sorted q vision_results w)
    as (results & -> & Hsub).
  split; [apply sorted_desc_descending|]. split; [|split].
  - intros k. rewrite sorted_desc_stable.
    etransitivity; [|exact Hsub].
    apply fmap_sublist, with_key_sublist.
  - rewrite sorted_desc_perm, <- (length_fmap fst results).
    rewrite <- (length_fmap fst vision_results).
    now apply sublist_length.
  - intros Hnd. rewrite sorted_desc_perm.
    eapply sublist_NoDup; eauto.
Qed.

End SemanticOrder.

(** * The further statements at the sample corpus, continued *)

Lemma format_search_results_blocks_witness :
  keyword_search Sample.query Sample.vision_results (1 # 2) <> []
  /\ forall fmt2 : Q -> string,
       format_search_results fmt2
         (keyword_search Sample.query Sample.vision_results (1 # 2))
         Sample.vision_results
       = ("Found 2 matching rooms:" ++ nl ++ nl
          ++ format_blocks fmt2 Sample.vision_results 1
               (keyword_search Sample.query Sample.vision_results (1 # 2)))
         %string.
Proof.
  assert (H : keyword_search Sample.query Sample.vision_results (1 # 2)
              <> []) by (vm_compute; discriminate).
  split; [exact H|]. intros fmt2.
  exact (proj1 (proj2 (format_search_results_blocks fmt2 _
                         Sample.vision_results)) H).
Defined.

Lemma report_ticks_agree_witness :
  hit_of Sample.query ("image1.jpg", Sample.image1)
  ∈ keyword_search Sample.query Sample.vision_results (3 # 10)
  /\ md_features
       (hit_details (hit_of Sample.query ("image1.jpg", Sample.image1)))
     = Some
         (FeaturesDetail (query_features Sample.query)
            (vision_features Sample.image1)
            (matched Sample.query Sample.image1))
  /\ length
       (List.filter
          (ticked
             (FeaturesDetail (query_features Sample.query)
                (vision_features Sample.image1)
                (matched Sample.query Sample.image1)))
          (query_features Sample.query))
     = length (matched Sample.query Sample.image1).
Proof.
  assert (Hfd : md_features
                  (hit_details
                     (hit_of Sample.query ("image1.jpg", Sample.image1)))
                = Some
                    (FeaturesDetail (query_features Sample.query)
                       (vision_features Sample.image1)
                       (matched Sample.query Sample.image1)))
    by reflexivity.
  split; [exact sample_hit|]. split; [exact Hfd|].
  exact (proj1 (report_ticks_agree Sample.query Sample.vision_results
                  (3 # 10) _ _ sample_hit Hfd)).
Defined.

Lemma semantic_search_order_witness :
  NoDup Sample.vision_results.*1
  /\ NoDup
       (semantic_search Sample.provider Sample.cosine_similarity
          Sample.query Sample.vision_results Sample.fresh).1.*1.
Proof.
  split; [exact sample_keys_distinct|].
  exact (proj2 (proj2 (proj2 (semantic_search_order nat Sample.provider
                                Sample.cosine_similarity Sample.query
                                Sample.vision_results Sample.fresh)))
           sample_keys_distinct).
Defined.

(** * Facts about dict assignment *)

Lemma dict_set_fresh {V : Type} (key : string) (v : V)
    (items : list (string * V)) :
  key ∉ items.*1 -> dict_set key v items = items ++ [(key, v)].
Proof.
  induction items as [|[k x] items IH]; intros Hk; [reflexivity|].
  rewrite fmap_cons in Hk. apply not_elem_of_cons in Hk as [Hne Hk].
  cbn [dict_set]. destruct (String.eqb_spec k key) as [->|_].
  - now destruct Hne.
  - cbn [app]. now rewrite IH.
Qed.

Lemma dict_set_keys {V : Type} (key : string) (v : V)
    (items : list (string * V)) :
  (dict_set key v items).*1 =
  if decide (key ∈ items.*1) then items.*1 else items.*1 ++ [key].
Proof.
  induction items as [|[k x] items IH].
  - cbn. destruct (decide (key ∈ [])) as [H|_]; [inversion H | reflexivity].
  - cbn [dict_set]. destruct (String.eqb_spec k key) as [->|Hne].
    + rewrite !fmap_cons. cbn [fst].
      destruct (decide (key ∈ key :: items.*1)) as [_|H]; [reflexivity|].
      destruct H. left.
    + rewrite !fmap_cons, IH. cbn [fst].
      destruct (decide (key ∈ items.*1)) as [Hin|Hout];
        destruct (decide (key ∈ k :: items.*1)) as [Hin'|Hout'];
        try reflexivity.
      * destruct Hout'. now right.
      * apply elem_of_cons in Hin' as [->|Hin']; [now destruct Hne|].
        contradiction.
Qed.

Lemma dict_set_NoDup {V : Type} (key : string) (v : V)
    (items : list (string * V)) :
  NoDup items.*1 -> NoDup (dict_set key v items).*1.
Proof.
  intros Hnd. rewrite dict_set_keys.
  destruct (decide (key ∈ items.*1)) as [Hin|Hout]; [exact Hnd|].
  apply NoDup_app. split; [exact Hnd|]. split; [|apply NoDup_singleton].
  intros x Hx Hx'. apply list_elem_of_singleton in Hx'. now subst.
Qed.

Lemma dict_set_elem_keys {V : Type} (key : string) (v : V)
    (items : list (string * V)) (k : string) :
  k ∈ (dict_set key v items).*1 <-> k = key \/ k ∈ items.*1.
Proof.
  rewrite dict_set_keys.
  destruct (decide (key ∈ items.*1)) as [Hin|Hout].
  - split; [now right | intros [->|H]; assumption].
  - rewrite elem_of_app, list_elem_of_singleton. tauto.
Qed.

Lemma dict_get_set {V : Type} (key : string) (v : V)
    (items : list (string * V)) (k : string) :
  dict_get k (dict_set key v items) =
  if String.eqb key k then Some v else dict_get k items.
Proof.
  induction items as [|[k0 x] items IH].
  - cbn. now destruct (String.eqb key k).
  - cbn [dict_set]. destruct (String.eqb_spec k0 key) as [->|Hne].
    + cbn [dict_get]. now destruct (String.eqb key k).
    + cbn [dict_get]. rewrite IH.
      destruct (String.eqb_spec k0 k) as [->|H0]; [|reflexivity].
      destruct (String.eqb_spec key k) as [->|_]; [now destruct Hne|].
      reflexivity.
Qed.

Lemma Forall2_elem_r {A B : Type} (R : A -> B -> Prop) (l : list A)
    (k : list B) (y : B) :
  Forall2 R l k -> y ∈ k -> exists x : A, x ∈ l /\ R x y.
Proof.
  induction 1 as [|x y' l k Hxy _ IH]; intros Hy; [inversion Hy|].
  apply elem_of_cons in Hy as [->|Hy].
  - exists x. split; [left | exact Hxy].
  - destruct (IH Hy) as (x' & Hx' & HR). exists x'. split; [now right|].
    exact HR.
Qed.

Lemma Forall2_elem_l {A B : Type} (R : A -> B -> Prop) (l : list A)
    (k : list B) (x : A) :
  Forall2 R l k -> x ∈ l -> exists y : B, y ∈ k /\ R x y.
Proof.
  induction 1 as [|x' y l k Hxy _ IH]; intros Hx; [inversion Hx|].
  apply elem_of_cons in Hx as [->|Hx].
  - exists y. split; [left | exact Hxy].
  - destruct (IH Hx) as (y' & Hy' & HR). exists y'. split; [now right|].
    exact HR.
Qed.

(** * Facts about the class [SemanticSearch] *)

Section SemanticSearchFacts.
Import SemanticSearch.
Variable Vec : Type.
Variable provider : list string -> string -> Vec.
Variable cosine_similarity : Vec -> Vec -> Q.

Lemma sem_extends_refl (w : world Vec) : extends w w.
Proof. now intros t v H. Qed.

Lemma sem_extends_trans (w1 w2 w3 : world Vec) :
  extends w1 w2 -> extends w2 w3 -> extends w1 w3.
Proof. intros H1 H2 t v H. now apply H2, H1. Qed.

(** What one call of [get_embedding] does to the object. *)
Lemma sem_get_embedding_run (text : string) (w : world Vec) :
  let out := get_embedding provider text w in
  embedding_cache out.2 !! text = Some out.1
  /\ extends w out.2
  /\ (cache_ok w -> cache_ok out.2)
  /\ exists new : list string,
       requests out.2 = requests w ++ new /\ (new = [] \/ new = [text]).
Proof.
  cbn zeta. unfold get_embedding.
  destruct (embedding_cache w !! text) eqn:E; cbn [fst snd].
  - split; [exact E|]. split; [apply sem_extends_refl|].
    split; [auto|]. exists []. rewrite app_nil_r. now split; [|left].
  - split; [simpl; apply lookup_insert_eq|]. split; [|split].
    + intros t v H. simpl. rewrite lookup_insert_ne; [exact H|].
      intros ->. congruence.
    + intros [Hnd Hin]. split; simpl.
      * apply NoDup_app. split; [exact Hnd|].
        split; [|apply NoDup_singleton].
        intros t Ht Ht'. apply list_elem_of_singleton in Ht'. subst t.
        destruct (Hin _ Ht) as [v Hv]. congruence.
      * intros t Ht. apply elem_of_app in Ht as [Ht|Ht].
        -- destruct (Hin _ Ht) as [v Hv].
           destruct (decide (text = t)) as [->|Hne]; [congruence|].
           rewrite lookup_insert_ne by exact Hne. now exists v.
        -- apply list_elem_of_singleton in Ht. subst t.
           rewrite lookup_insert_eq. now eexists.
    + exists [text]. now split; [|right].
Qed.

(** What the loop of [create_image_embeddings] adds: one entry per
    image, in order, holding the vector cached for the image's text. *)
Lemma create_loop_run (items : list (string * room_json))
    (embeddings : list (string * Vec)) (w : world Vec) :
  NoDup (embeddings.*1 ++ items.*1) ->
  let out := create_loop provider items embeddings w in
  extends w out.2
  /\ (cache_ok w -> cache_ok out.2)
  /\ (exists new : list string,
        requests out.2 = requests w ++ new
        /\ length new <= length items
        /\ forall t : string, t ∈ new ->
             exists (url : string) (info : room_json),
               (url, info) ∈ items /\ t = description_text info)
  /\ exists fresh : list (string * Vec),
       out.1 = embeddings ++ fresh
       /\ Forall2
            (fun (item : string * room_json) (e : string * Vec) =>
               e.1 = item.1
               /\ embedding_cache out.2 !! description_text item.2
                  = Some e.2)
            items fresh.
Proof.
  cbn zeta. revert embeddings w.
  induction items as [|[url info] items IH]; intros embeddings w Hnd.
  - cbn [create_loop fst snd]. split; [apply sem_extends_refl|].
    split; [auto|]. split.
    + exists []. rewrite app_nil_r. split; [reflexivity|].
      split; [reflexivity|]. intros t H. inversion H.
    + exists []. rewrite app_nil_r. split; [reflexivity | constructor].
  - cbn [create_loop].
    pose proof (sem_get_embedding_run (description_text info) w) as Hg.
    cbn zeta in Hg.
    destruct (get_embedding provider (description_text info) w) as [e w1].
    cbn [fst snd] in Hg. destruct Hg as (Hst & Hex & Hok & n1 & Hn1 & Hc).
    rewrite fmap_cons in Hnd. cbn [fst] in Hnd.
    assert (Hfresh : url ∉ embeddings.*1).
    { apply NoDup_app in Hnd as (_ & Hd & _). intros Hin.
      apply (Hd url Hin). left. }
    rewrite dict_set_fresh by exact Hfresh.
    assert (Hnd' : NoDup ((embeddings ++ [(url, e)]).*1 ++ items.*1)).
    { rewrite fmap_app, <- app_assoc. exact Hnd. }
    destruct (IH (embeddings ++ [(url, e)]) w1 Hnd')
      as (H1 & H2 & (n2 & Hn2 & Hlen & Hin) & fresh & Hf & HF).
    split; [eapply sem_extends_trans; eauto|]. split; [auto|]. split.
    + exists (n1 ++ n2). rewrite Hn2, Hn1, <- app_assoc.
      split; [reflexivity|]. split.
      * rewrite length_app. cbn [length].
        destruct Hc as [-> | ->]; simpl; lia.
      * intros t Ht. apply elem_of_app in Ht as [Ht|Ht].
        -- destruct Hc as [-> | ->]; [inversion Ht|].
           apply list_elem_of_singleton in Ht. subst t.
           exists url, info. split; [left | reflexivity].
        -- destruct (Hin t Ht) as (u & i & Hi & Heq).
           exists u, i. split; [now right | exact Heq].
    + exists ((url, e) :: fresh). rewrite Hf, <- app_assoc.
      split; [reflexivity|]. constructor; [|exact HF].
      split; [reflexivity|]. cbn [snd]. now apply H1.
Qed.

Lemma zip_similarities (query_embedding : Vec) (l : list (string * Vec)) :
  zip l.*1 (map (cosine_similarity query_embedding) l.*2)
  = map (fun e => (e.1, cosine_similarity query_embedding e.2)) l.
Proof.
  induction l as [|[u v] l IH]; [reflexivity|].
  simpl. f_equal. exact IH.
Qed.

Lemma filter_elem {A : Type} (p : A -> bool) (l : list A) (x : A) :
  x ∈ List.filter p l <-> x ∈ l /\ p x = true.
Proof. rewrite !list_elem_of_In. apply filter_In. Qed.

Lemma filter_keys_NoDup {V : Type} (p : string * V -> bool)
    (l : list (string * V)) :
  NoDup l.*1 -> NoDup (List.filter p l).*1.
Proof.
  induction l as [|x l IH]; intros Hnd; [constructor|].
  rewrite fmap_cons in Hnd. apply NoDup_cons in Hnd as [Hx Hnd].
  cbn [List.filter]. destruct (p x); [|now apply IH].
  rewrite fmap_cons. apply NoDup_cons. split; [|now apply IH].
  intros Hin. apply Hx. apply list_elem_of_fmap in Hin as (y & -> & Hy).
  apply filter_elem in Hy as [Hy _]. apply list_elem_of_fmap. now exists y.
Qed.

(** X14.  On an empty dict of images [semantic_search] raises (numpy
    cannot stack an empty list), after the query has been embedded and
    cached; on a dict with an image it returns a list. *)
Theorem semantic_search_empty_raises (query : string) (threshold : Q)
    (image_descriptions : list (string * room_json)) (w : world Vec) :
  semantic_search provider cosine_similarity query [] threshold w
  = (None, (get_embedding provider query w).2)
  /\ (image_descriptions <> [] ->
      is_Some
        (semantic_search provider cosine_similarity query
           image_descriptions threshold w).1).
Proof.
  split.
  - unfold semantic_search.
    now destruct (get_embedding provider query w) as [qe w1].
  - intros Hne. unfold semantic_search.
    destruct (get_embedding provider query w) as [qe w1].
    unfold create_image_embeddings.
    destruct image_descriptions as [|[url info] rest]; [contradiction|].
    cbn [create_loop].
    destruct (get_embedding provider (description_text info) w1)
      as [e w2].
    cbn [dict_set].
    assert (Hlen : forall items emb w0,
              emb <> [] ->
              (create_loop provider items emb w0).1 <> []).
    { clear. induction items as [|[u i] items IH]; intros emb w0 He.
      - exact He.
      - cbn [create_loop].
        destruct (get_embedding provider (description_text i) w0)
          as [e0 w3].
        apply IH. destruct emb as [|[k x] emb]; [discriminate|].
        cbn [dict_set]. destruct (String.eqb k u); discriminate. }
    specialize (Hlen rest [(url, e)] w2 ltac:(discriminate)).
    destruct (create_loop provider rest [(url, e)] w2) as [emb w3].
    cbn [fst] in Hlen. destruct emb as [|p emb]; [contradiction|].
    rewrite fmap_cons. cbn [calculate_similarities fst]. now eexists.
Qed.

(** X15.  On distinct keys [semantic_search] returns, in descending
    order of similarity, exactly the images whose similarity to the
    query reaches the threshold, each once; the similarity of an image is
    taken between the cached vector of the query and that of the text
    built from all its fields, so an image with an empty description is
    scored too. *)
Theorem semantic_search_results (query : string) (threshold : Q)
    (image_descriptions : list (string * room_json)) (w : world Vec) :
  NoDup image_descriptions.*1 ->
  image_descriptions <> [] ->
  let out :=
    semantic_search provider cosine_similarity query image_descriptions
      threshold w in
  exists result : list (string * Q),
    out.1 = Some result
    /\ descending snd result
    /\ NoDup result.*1
    /\ forall (url : string) (s : Q),
         (url, s) ∈ result <->
         exists info : room_json,
           (url, info) ∈ image_descriptions
           /\ similarity_of cosine_similarity out.2 query info s
           /\ (threshold <= s)%Q.
Proof.
  intros Hnd Hne. cbn zeta. unfold semantic_search.
  pose proof (sem_get_embedding_run query w) as Hg. cbn zeta in Hg.
  destruct (get_embedding provider query w) as [qe w1].
  cbn [fst snd] in Hg. destruct Hg as (Hq & _ & _ & _).
  unfold create_image_embeddings.
  pose proof (create_loop_run image_descriptions [] w1) as Hrun.
  cbn zeta in Hrun. specialize (Hrun Hnd).
  destruct (create_loop provider image_descriptions [] w1) as [emb w2].
  cbn [fst snd] in Hrun.
  destruct Hrun as (Hex & _ & _ & fresh & Hf & HF).
  simpl in Hf. subst emb.
  assert (Hkeys : fresh.*1 = image_descriptions.*1).
  { clear -HF. induction HF as [|x y l k [Hxy _] _ IH]; [reflexivity|].
    rewrite !fmap_cons. now rewrite IH, Hxy. }
  destruct fresh as [|p fresh'] eqn:Efresh.
  { destruct image_descriptions; [contradiction | inversion HF]. }
  rewrite <- Efresh in *. clear Efresh p fresh'.
  assert (Hcalc : calculate_similarities cosine_similarity qe fresh.*2
                  = Some (map (cosine_similarity qe) fresh.*2)).
  { destruct fresh as [|p l]; [|reflexivity].
    destruct image_descriptions; [contradiction | inversion HF]. }
  rewrite Hcalc. cbn [fst snd]. rewrite zip_similarities.
  eexists. split; [reflexivity|].
  split; [apply sorted_desc_descending|]. split.
  - rewrite sorted_desc_perm. apply filter_keys_NoDup.
    unfold fmap, list_fmap at 1.
    fold (@map (string * Q) string fst). rewrite map_map. cbn [fst].
    change (NoDup fresh.*1). now rewrite Hkeys.
  - intros url s. rewrite sorted_desc_elem, filter_elem.
    rewrite list_elem_of_In, in_map_iff. cbn [snd].
    rewrite Qle_bool_iff. split.
    + intros [(e & Heq & He) Hle]. injection Heq as <- <-.
      apply list_elem_of_In in He.
      destruct (Forall2_elem_r _ _ _ _ HF He) as ([u info] & Hin & Hu & Hv).
      cbn [fst snd] in Hu, Hv. exists info. rewrite Hu.
      split; [exact Hin|]. split; [|exact Hle].
      exists qe, e.2. split; [now apply Hex|]. now split.
    + intros (info & Hin & (qe' & te & Hq' & Ht & ->) & Hle).
      split; [|exact Hle].
      destruct (Forall2_elem_l _ _ _ _ HF Hin) as (e & He & Hu & Hv).
      cbn [fst snd] in Hu, Hv. exists e.
      split; [|now apply list_elem_of_In].
      apply Hex in Hq. rewrite Hq in Hq'. injection Hq' as <-.
      rewrite Hv in Ht. injection Ht as <-. now rewrite Hu.
Qed.

(** X16.  A search sends to the provider at most the query and the
    texts built for the images, so at most one request more than there
    are images, and keeps the cache sound: a text that was sent once is
    never sent again. *)
Theorem semantic_search_cache (query : string) (threshold : Q)
    (image_descriptions : list (string * room_json)) (w : world Vec) :
  NoDup image_descriptions.*1 ->
  let out :=
    semantic_search provider cosine_similarity query image_descriptions
      threshold w in
  cache_ok (init Vec)
  /\ (cache_ok w -> cache_ok out.2)
  /\ extends w out.2
  /\ exists new : list string,
       requests out.2 = requests w ++ new
       /\ length new <= S (length image_descriptions)
       /\ forall t : string, t ∈ new ->
            t = query
            \/ exists (url : string) (info : room_json),
                 (url, info) ∈ image_descriptions
                 /\ t = description_text info.
Proof.
  intros Hnd. cbn zeta.
  split; [split; [constructor | intros t Ht; inversion Ht]|].
  unfold semantic_search.
  pose proof (sem_get_embedding_run query w) as Hg. cbn zeta in Hg.
  destruct (get_embedding provider query w) as [qe w1].
  cbn [fst snd] in Hg. destruct Hg as (_ & Hex1 & Hok1 & n1 & Hn1 & Hc).
  unfold create_image_embeddings.
  pose proof (create_loop_run image_descriptions [] w1) as Hrun.
  cbn zeta in Hrun. specialize (Hrun Hnd).
  destruct (create_loop provider image_descriptions [] w1) as [emb w2].
  cbn [fst snd] in Hrun.
  destruct Hrun as (Hex2 & Hok2 & (n2 & Hn2 & Hlen & Hin) & _).
  assert (Hw : (match
                  calculate_similarities cosine_similarity qe emb.*2
                with
                | Some similarities =>
                    (Some
                       (sorted_desc snd
                          (List.filter
                             (fun us : string * Q => Qle_bool threshold us.2)
                             (zip emb.*1 similarities))), w2)
                | None => (None, w2)
                end).2 = w2)
    by now destruct (calculate_similarities cosine_similarity qe emb.*2).
  rewrite Hw. split; [auto|].
  split; [eapply sem_extends_trans; eauto|].
  exists (n1 ++ n2). rewrite Hn2, Hn1, <- app_assoc.
  split; [reflexivity|]. split.
  - rewrite length_app. destruct Hc as [-> | ->]; simpl; lia.
  - intros t Ht. apply elem_of_app in Ht as [Ht|Ht].
    + destruct Hc as [-> | ->]; [inversion Ht|].
      apply list_elem_of_singleton in Ht. now left.
    + right. exact (Hin t Ht).
Qed.

End SemanticSearchFacts.

(** * Facts about the two agents *)

Lemma fallback_normalized (e : string) (c : room_json) :
  (normalized_score (QueryAgent.fallback e) c
   == point (2 <=? get (max_capacity c) 0)%Z)%Q.
Proof.
  pose proof (score_closed_form (QueryAgent.fallback e) c) as Hs.
  pose proof (max_score_closed_form (QueryAgent.fallback e) c) as Hm.
  change (room_active (QueryAgent.fallback e)) with false in Hs, Hm.
  change (view_active (QueryAgent.fallback e)) with false in Hs, Hm.
  change (capacity_active (QueryAgent.fallback e)) with true in Hs, Hm.
  change (matched (QueryAgent.fallback e) c) with (@nil string) in Hs.
  change (query_features (QueryAgent.fallback e)) with (@nil string) in Hm.
  change (capacity_match (QueryAgent.fallback e) c)
    with (2 <=? get (max_capacity c) 0)%Z in Hs.
  cbn [andb point] in Hs, Hm. rewrite (len_Q_nil string) in Hs, Hm.
  unfold normalized_score, normalize.
  destruct (Qlt_le_dec 0 (max_score _)) as [H|H].
  - rewrite Hs, Hm. field.
  - rewrite Hm in H. lra.
Qed.

(** X17.  When the language model call or the parsing of its answer
    fails, [process_query] returns a query whose only constraint is a
    capacity of 2 and whose description is the error text: a candidate
    scores 1 when its capacity is at least 2 and 0 otherwise, so a
    threshold in (0, 1] keeps exactly the rooms for two or more, and the
    semantic channel stays active. *)
Theorem process_query_failure (chat : string -> string + room_json)
    (user_query e : string) :
  chat user_query = inl e ->
  let q := QueryAgent.process_query chat user_query in
  room_active q = false /\ view_active q = false
  /\ features_active q = false /\ capacity_active q = true
  /\ query_description q <> ""
  /\ (forall c : room_json,
        (normalized_score q c == point (2 <=? get (max_capacity c) 0)%Z)%Q)
  /\ (forall (vision_results : list (string * room_json)) (min_score : Q)
        (url : string),
        (0 < min_score)%Q -> (min_score <= 1)%Q ->
        url ∈ map hit_url (keyword_search q vision_results min_score) <->
        exists c : room_json,
          (url, c) ∈ vision_results /\ (2 <= get (max_capacity c) 0)%Z).
Proof.
  intros He. cbn zeta. unfold QueryAgent.process_query. rewrite He.
  split; [reflexivity|]. split; [reflexivity|]. split; [reflexivity|].
  split; [reflexivity|]. split; [discriminate|].
  split; [apply fallback_normalized|].
  intros vr m url H0 H1. rewrite keyword_search_url.
  split; intros (c & Hc & H); exists c; (split; [exact Hc|]).
  - rewrite fallback_normalized in H.
    destruct (Z.leb_spec 2 (get (max_capacity c) 0%Z)) as [Hle|Hlt];
      [exact Hle|]. cbn [point] in H. lra.
  - rewrite fallback_normalized.
    apply Z.leb_le in H. rewrite H. exact H1.
Qed.

(** X18.  The record [analyze_image] returns for an image it could not
    analyse never earns the capacity point or a feature point: its score
    is what the words of the query's room type and view type earn
    against "unknown".  Its description is the error text, which is
    not empty, so the semantic channel does not skip it. *)
Theorem failed_analysis_scoring (q : room_json) (e : string) :
  let c := VisionAgent.failed e in
  (capacity_active q = true -> capacity_match q c = false)
  /\ matched q c = []
  /\ (score (score_candidate q c) ==
        point (room_active q && Str.contains (query_room_type q) "unknown")
        + point (view_active q
                 && Str.contains (query_view_type q) "unknown"))%Q
  /\ (forall (vision_results : list (string * room_json)) (url : string),
        (url, c) ∈ vision_results -> (url, c) ∈ described vision_results).
Proof.
  cbn zeta.
  assert (Hc : capacity_active q = true ->
               capacity_match q (VisionAgent.failed e) = false).
  { unfold capacity_active, capacity_match.
    change (vision_max_capacity (VisionAgent.failed e)) with 0%Z.
    intros H. apply Z.ltb_lt in H. apply Z.leb_gt. exact H. }
  assert (Hm : matched q (VisionAgent.failed e) = []).
  { unfold matched.
    change (vision_features (VisionAgent.failed e)) with (@nil string).
    induction (query_features q) as [|f l IH]; [reflexivity|].
    rewrite filter_cons_False; [exact IH | discriminate]. }
  split; [exact Hc|]. split; [exact Hm|]. split.
  - rewrite score_closed_form, Hm, (len_Q_nil string).
    change (room_match q (VisionAgent.failed e))
      with (Str.contains (query_room_type q) "unknown").
    change (view_match q (VisionAgent.failed e))
      with (Str.contains (query_view_type q) "unknown").
    destruct (capacity_active q) eqn:Ea.
    + rewrite (Hc eq_refl). cbn [andb point]. ring.
    + cbn [andb point]. ring.
  - intros vr url Hin. apply described_elem. split; [exact Hin|].
    discriminate.
Qed.

Lemma dict_set_elem {V : Type} (key : string) (v : V)
    (items : list (string * V)) (k : string) (x : V) :
  (k, x) ∈ dict_set key v items -> (k, x) = (key, v) \/ (k, x) ∈ items.
Proof.
  induction items as [|[k0 x0] items IH]; cbn [dict_set].
  - intros H. apply list_elem_of_singleton in H. now left.
  - destruct (String.eqb_spec k0 key) as [->|Hne]; intros H.
    + apply elem_of_cons in H as [H|H]; [now left | right; now right].
    + apply elem_of_cons in H as [H|H]; [right; rewrite H; left|].
      destruct (IH H) as [Heq|Hin]; [now left | right; now right].
Qed.

Section VisionAgentFacts.
Import VisionAgent.
Variable vision : list string -> string -> bool -> string + room_json.

Lemma analyze_loop_run (image_urls : list string)
    (results : list (string * room_json)) (w : world) :
  NoDup results.*1 ->
  let out := analyze_loop vision image_urls results w in
  NoDup out.1.*1
  /\ (forall k : string,
        k ∈ out.1.*1 <-> k ∈ results.*1 \/ k ∈ image_urls)
  /\ analyzed out.2 = analyzed w ++ image_urls
  /\ (forall (k : string) (d : room_json),
        (k, d) ∈ out.1 ->
        (k, d) ∈ results
        \/ k ∈ image_urls
           /\ exists log : list string, d = outcome vision log k).
Proof.
  cbn zeta. revert results w.
  induction image_urls as [|url rest IH]; intros results w Hnd.
  - cbn [analyze_loop fst snd]. split; [exact Hnd|].
    split; [intros k; split; [now left | intros [H|H]; [exact H|]];
            inversion H|].
    split; [now rewrite app_nil_r | intros k d H; now left].
  - cbn [analyze_loop].
    assert (Hone : exists w1 : world,
              analyze_image vision url false w
              = (outcome vision (analyzed w) url, w1)
              /\ analyzed w1 = analyzed w ++ [url]).
    { unfold analyze_image, outcome.
      destruct (vision (analyzed w) url false); eexists; now split. }
    destruct Hone as (w1 & -> & Hlog).
    destruct (IH (dict_set url (outcome vision (analyzed w) url) results) w1
                (dict_set_NoDup _ _ _ Hnd)) as (H1 & H2 & H3 & H4).
    split; [exact H1|]. split; [|split].
    + intros k. rewrite H2, dict_set_elem_keys, elem_of_cons. tauto.
    + rewrite H3, Hlog, <- app_assoc. reflexivity.
    + intros k d Hin. destruct (H4 k d Hin) as [Hd | [Hk Hex]].
      * apply dict_set_elem in Hd as [Heq|Hd]; [|now left].
        injection Heq as -> ->. right. split; [left|]. now eexists.
      * right. split; [now right | exact Hex].
Qed.

(** X19.  [analyze_images] returns a dict with one entry per distinct
    url of its argument: the keys are pairwise distinct and are exactly
    the given urls, every url is sent for analysis (a repeated one each
    time), and each entry is the parsed answer for its url or the record
    of its failure. *)
Theorem analyze_images_corpus (image_urls : list string) (w : world) :
  let out := analyze_images vision image_urls w in
  NoDup out.1.*1
  /\ (forall k : string, k ∈ out.1.*1 <-> k ∈ image_urls)
  /\ length out.1 <= length image_urls
  /\ analyzed out.2 = analyzed w ++ image_urls
  /\ (forall (k : string) (d : room_json),
        (k, d) ∈ out.1 ->
        exists log : list string, d = outcome vision log k).
Proof.
  cbn zeta. unfold analyze_images.
  destruct (analyze_loop_run image_urls [] w (NoDup_nil_2 : NoDup [].*1))
    as (H1 & H2 & H3 & H4).
  assert (Hk : forall k : string,
            k ∈ (analyze_loop vision image_urls [] w).1.*1
            <-> k ∈ image_urls).
  { intros k. rewrite H2. split; [intros [H|H]; [inversion H | exact H]|].
    now right. }
  split; [exact H1|]. split; [exact Hk|]. split; [|split; [exact H3|]].
  - rewrite <- (length_fmap fst).
    apply submseteq_length, NoDup_submseteq; [exact H1|].
    intros k. apply Hk.
  - intros k d Hin. destruct (H4 k d Hin) as [H | [_ Hex]];
      [inversion H | exact Hex].
Qed.

End VisionAgentFacts.

(** * The statements about the other classes at the sample corpus *)

Lemma sample_not_empty : Sample.vision_results <> [].
Proof. discriminate. Defined.

Lemma semantic_search_empty_raises_witness :
  Sample.vision_results <> []
  /\ is_Some
       (SemanticSearch.semantic_search Sample.provider
          Sample.cosine_similarity "sea view" Sample.vision_results (7 # 10)
          (SemanticSearch.init nat)).1.
Proof.
  split; [exact sample_not_empty|].
  exact (proj2 (semantic_search_empty_raises nat Sample.provider
                  Sample.cosine_similarity "sea view" (7 # 10)
                  Sample.vision_results (SemanticSearch.init nat))
           sample_not_empty).
Defined.

Lemma semantic_search_results_witness :
  NoDup Sample.vision_results.*1
  /\ Sample.vision_results <> []
  /\ exists result : list (string * Q),
       (SemanticSearch.semantic_search Sample.provider
          Sample.cosine_similarity "sea view" Sample.vision_results (7 # 10)
          (SemanticSearch.init nat)).1 = Some result
       /\ descending snd result.
Proof.
  split; [exact sample_keys_distinct|]. split; [exact sample_not_empty|].
  destruct (semantic_search_results nat Sample.provider
              Sample.cosine_similarity "sea view" (7 # 10)
              Sample.vision_results (SemanticSearch.init nat)
              sample_keys_distinct sample_not_empty)
    as (result & H1 & H2 & _).
  exists result. split; [exact H1 | exact H2].
Defined.

Lemma semantic_search_cache_witness :
  NoDup Sample.vision_results.*1
  /\ SemanticSearch.cache_ok (SemanticSearch.init nat).
Proof.
  split; [exact sample_keys_distinct|].
  exact (proj1 (semantic_search_cache nat Sample.provider
                  Sample.cosine_similarity "sea view" (7 # 10)
                  Sample.vision_results (SemanticSearch.init nat)
                  sample_keys_distinct)).
Defined.

Lemma process_query_failure_witness :
  Scene.chat "" = inl "empty prompt"
  /\ capacity_active (QueryAgent.process_query Scene.chat "") = true
  /\ (normalized_score (QueryAgent.process_query Scene.chat "") Sample.image3
      == 0)%Q.
Proof.
  assert (H : Scene.chat "" = inl "empty prompt") by reflexivity.
  split; [exact H|].
  pose proof (process_query_failure Scene.chat "" "empty prompt" H) as P.
  cbn zeta in P. destruct P as (_ & _ & _ & Hc & _ & Hn & _).
  split; [exact Hc | exact (Hn Sample.image3)].
Defined.

Lemma failed_analysis_scoring_witness :
  capacity_active Sample.query = true
  /\ capacity_match Sample.query (VisionAgent.failed "timeout") = false.
Proof.
  assert (H : capacity_active Sample.query = true) by reflexivity.
  split; [exact H|].
  exact (proj1 (failed_analysis_scoring Sample.query "timeout") H).
Defined.

Lemma analyze_images_corpus_witness :
  ("image1.jpg", Sample.image1)
  ∈ (VisionAgent.analyze_images Scene.vision
       ["image1.jpg"; "image2.jpg"; "image1.jpg"] VisionAgent.init).1
  /\ exists log : list string,
       Sample.image1 = VisionAgent.outcome Scene.vision log "image1.jpg".
Proof.
  assert (H : ("image1.jpg", Sample.image1)
              ∈ (VisionAgent.analyze_images Scene.vision
                   ["image1.jpg"; "image2.jpg"; "image1.jpg"]
                   VisionAgent.init).1) by (vm_compute; left).
  split; [exact H|].
  pose proof (analyze_images_corpus Scene.vision
                ["image1.jpg"; "image2.jpg"; "image1.jpg"]
                VisionAgent.init) as P.
  cbn zeta in P. exact (proj2 (proj2 (proj2 (proj2 P))) _ _ H).
Defined.

(** * Case and capacity *)







Lemma max_score_ignores_candidate (q c c' : room_json) :
  max_score (score_candidate q c) = max_score (score_candidate q c').
Proof.
  unfold score_candidate, features_block.
  destruct (features_active q).
  - destruct (outer_loop _ _ _ _), (outer_loop _ _ _ _). cbn [max_score].
    unfold view_block, capacity_block, room_block.
    now destruct (room_active q), (capacity_active q), (view_active q).
  - unfold view_block, capacity_block, room_block.
    now destruct (room_active q), (capacity_active q), (view_active q).
Qed.

(** X21.  More capacity never hurts: a candidate whose capacity is raised,
    all else equal, never gets a lower normalized score. *)
Theorem capacity_monotone (q c : room_json) (n : Z) :
  (get (max_capacity c) 0 <= n)%Z ->
  (normalized_score q c <= normalized_score q (with_capacity c n))%Q.
Proof.
  intros Hn.
  pose proof (max_score_ignores_candidate q c (with_capacity c n)) as Hm.
  assert (Hs : (score (score_candidate q c)
                <= score (score_candidate q (with_capacity c n)))%Q).
  { rewrite !score_closed_form.
    change (room_match q (with_capacity c n)) with (room_match q c).
    change (view_match q (with_capacity c n)) with (view_match q c).
    change (matched q (with_capacity c n)) with (matched q c).
    assert (Hc : (point (capacity_active q && capacity_match q c)
                  <= point (capacity_active q
                            && capacity_match q (with_capacity c n)))%Q).
    { unfold capacity_match.
      change (vision_max_capacity (with_capacity c n)) with n.
      unfold vision_max_capacity.
      destruct (capacity_active q); [|apply Qle_refl]. cbn [andb].
      destruct (Z.leb_spec (query_max_capacity q) (get (max_capacity c) 0%Z))
        as [H|H], (Z.leb_spec (query_max_capacity q) n) as [H'|H'];
        cbn [point]; try lra; lia. }
    lra. }
  unfold normalized_score, normalize. rewrite <- Hm.
  destruct (Qlt_le_dec 0 (max_score (score_candidate q c))) as [H1|H1];
    [|apply Qle_refl].
  unfold Qdiv. apply Qmult_le_compat_r; [exact Hs|].
  apply Qinv_le_0_compat. lra.
Qed.

(** * The statements on case and capacity at the sample corpus *)


Lemma capacity_monotone_witness :
  (get (max_capacity Sample.image3) 0 <= 2)%Z
  /\ (normalized_score Sample.query Sample.image3
      <= normalized_score Sample.query (with_capacity Sample.image3 2))%Q.
Proof.
  assert (H : (get (max_capacity Sample.image3) 0 <= 2)%Z) by discriminate.
  split; [exact H|].
  exact (capacity_monotone Sample.query Sample.image3 2 H).
Defined.
